(** * Capital Flow Dashboard: the polling and history engine of [src/App.tsx]

    The component [App] polls two Binance endpoints (ETHUSDT and BTCUSDT)
    every three seconds, keeps the latest payload of each in React state and
    a sliding window of (time, totalNetInflow) points in two refs, and hands
    both to [AssetCard].

    The embedding follows the source:
    - JavaScript values are an inductive type; property reads on
      [null]/[undefined] throw;
    - arrays live in a store and are named by locations, so that two
      references to one array are visibly one array;
    - [fetchData] is written in a state-and-exception monad, one monadic
      step per statement of the source, and wrapped in its [try]/[catch];
    - the timer of [useEffect] is a small event loop with a step function. *)

From Stdlib Require Import ZArith QArith_base String List Lia.
From stdpp Require Import base list strings.

Set Warnings "-register-all".

Open Scope string_scope.
Open Scope Z_scope.
Open Scope list_scope.

(** ** JavaScript values *)

(** A number [JSON.parse] can produce: the exact value of a finite
    double, or an infinity (a literal beyond the range of doubles).  There
    is no [NaN] in JSON.  Integers are read as numbers. *)
Inductive number : Type :=
| Finite (q : Q)
| Infinite (negative : bool).

Definition number_of_Z (n : Z) : number := Finite (inject_Z n).
Coercion number_of_Z : Z >-> number.

(** What [Response.json()] can produce, plus [undefined], which a property
    read can produce. *)
Inductive jsval : Type :=
| VUndefined
| VNull
| VBool (b : bool)
| VNumber (n : number)
| VString (s : string)
| VArray (xs : list jsval)
| VObject (props : list (string * jsval)).

(** Thrown values.  [Rejection] is the reason of a rejected promise
    ([fetch] failing, or [json()] on a body that is not JSON); [TypeError]
    is what reading a property of [null] or [undefined] throws. *)
Inductive exn : Type :=
| Rejection (reason : string)
| TypeError (property : string).

Inductive settled (A : Type) : Type :=
| Fulfilled (a : A)
| Rejected (e : exn).
Arguments Fulfilled {A} a.
Arguments Rejected {A} e.

(** A [Response] as the source uses it: only [json()] is ever called (the
    HTTP status is never read). *)
Record Response : Type := mkResponse { json : settled jsval }.

(** Own-property lookup in an object literal produced by [JSON.parse]. *)
Fixpoint own_property (k : string) (props : list (string * jsval)) : option jsval :=
  match props with
  | [] => None
  | (k', v) :: rest => if String.eqb k k' then Some v else own_property k rest
  end.

(** ** The type [HistoryItem] and the array store *)

Record HistoryItem : Type := mkHistoryItem { time : string; value : jsval }.

Abbreviation loc := nat (only parsing).

(** The store of [HistoryItem[]] arrays: location [l] holds [store !! l]. *)
Abbreviation store := (list (list HistoryItem)) (only parsing).

(** ** Effects a cycle can have besides writing the refs *)

Inductive effect : Type :=
| ConsoleError (e : exn)
| SetEthData (v : jsval)
| SetBtcData (v : jsval).

(** ** State of the mounted component

    [ethData]/[btcData] are the two [useState] cells (initially [null]);
    [ethHistoryRef]/[btcHistoryRef] are the [.current] fields of the two
    refs; [trace] lists, oldest first, the calls to [console.error] and to
    the two setters. *)
Record AppState : Type := mkAppState {
  ethData : jsval;
  btcData : jsval;
  ethHistoryRef : loc;
  btcHistoryRef : loc;
  heap : store;
  trace : list effect
}.

(** ** A monad for statements that read and write the state and may throw *)

Inductive outcome (A : Type) : Type :=
| Normal (a : A)
| Throw (e : exn).
Arguments Normal {A} a.
Arguments Throw {A} e.

Definition M (A : Type) : Type := AppState -> outcome A * AppState.

Definition ret {A} (a : A) : M A := fun s => (Normal a, s).

Definition bind {A B} (m : M A) (k : A -> M B) : M B :=
  fun s => match m s with
           | (Normal a, s') => k a s'
           | (Throw e, s') => (Throw e, s')
           end.

Definition throw {A} (e : exn) : M A := fun s => (Throw e, s).

Definition try_catch (m : M unit) (handler : exn -> M unit) : M unit :=
  fun s => match m s with
           | (Normal a, s') => (Normal a, s')
           | (Throw e, s') => handler e s'
           end.

Notation "x <- m ;; k" := (bind m (fun x => k))
  (at level 90, m at next level, right associativity).
Notation "m ;;; k" := (bind m (fun _ => k))
  (at level 90, right associativity).

(** [await p]: the value of a fulfilled promise, or its rejection thrown. *)
Definition await {A} (p : settled A) : M A :=
  match p with
  | Fulfilled a => ret a
  | Rejected e => throw e
  end.

(** [Promise.all([p, q])] on two promises: the pair of values when both are
    fulfilled, otherwise the reason of the one that rejected first
    ([q_first] tells which settled first when both reject). *)
Definition Promise_all {A B} (p : settled A) (q : settled B) (q_first : bool)
  : settled (A * B) :=
  match p, q with
  | Fulfilled a, Fulfilled b => Fulfilled (a, b)
  | Rejected e, Fulfilled _ => Rejected e
  | Fulfilled _, Rejected e => Rejected e
  | Rejected e1, Rejected e2 => Rejected (if q_first then e2 else e1)
  end.

(** [v.k]: throws on [null] and [undefined] ([prop_of] is [None] there);
    an own property of an object; [undefined] otherwise.  Inherited properties are not modelled: the
    source reads only [data] and [totalNetInflow], which no prototype
    defines. *)
Definition prop_of (v : jsval) (k : string) : option jsval :=
  match v with
  | VUndefined | VNull => None
  | VObject props => Some (default VUndefined (own_property k props))
  | _ => Some VUndefined
  end.

Definition get_prop (v : jsval) (k : string) : M jsval :=
  match prop_of v k with
  | Some x => ret x
  | None => throw (TypeError k)
  end.

(** ** Arrays *)

(** [Array.prototype.slice(start)] on the contents of an array: a negative
    [start] counts from the end, and both ends are clamped. *)
Definition slice {A} (start : Z) (xs : list A) : list A :=
  let len := Z.of_nat (length xs) in
  let k := if (start <? 0)%Z then Z.max (len + start) 0 else Z.min start len in
  drop (Z.to_nat k) xs.

(** Allocation of a new array object. *)
Definition alloc (xs : list HistoryItem) : M loc :=
  fun s => (Normal (length (heap s)),
            mkAppState (ethData s) (btcData s) (ethHistoryRef s) (btcHistoryRef s)
                       (heap s ++ [xs]) (trace s)).

(** Contents of the array at [l] (a dangling location reads as empty; no
    location handed out by [alloc] dangles). *)
Definition contents (h : store) (l : loc) : list HistoryItem :=
  default [] (h !! l).

Definition read (l : loc) : M (list HistoryItem) :=
  fun s => (Normal (contents (heap s) l), s).

(** [a.slice(start)] allocates the sliced copy. *)
Definition array_slice (l : loc) (start : Z) : M loc :=
  xs <- read l ;; alloc (slice start xs).

(** ** Reads and writes of the component's cells *)

Definition get_ethHistoryRef : M loc := fun s => (Normal (ethHistoryRef s), s).
Definition get_btcHistoryRef : M loc := fun s => (Normal (btcHistoryRef s), s).

Definition set_ethHistoryRef (l : loc) : M unit :=
  fun s => (Normal tt,
            mkAppState (ethData s) (btcData s) l (btcHistoryRef s) (heap s) (trace s)).

Definition set_btcHistoryRef (l : loc) : M unit :=
  fun s => (Normal tt,
            mkAppState (ethData s) (btcData s) (ethHistoryRef s) l (heap s) (trace s)).

Definition setEthData (v : jsval) : M unit :=
  fun s => (Normal tt,
            mkAppState v (btcData s) (ethHistoryRef s) (btcHistoryRef s) (heap s)
                       (trace s ++ [SetEthData v])).

Definition setBtcData (v : jsval) : M unit :=
  fun s => (Normal tt,
            mkAppState (ethData s) v (ethHistoryRef s) (btcHistoryRef s) (heap s)
                       (trace s ++ [SetBtcData v])).

Definition console_error (e : exn) : M unit :=
  fun s => (Normal tt,
            mkAppState (ethData s) (btcData s) (ethHistoryRef s) (btcHistoryRef s)
                       (heap s) (trace s ++ [ConsoleError e])).

(** ** [fetchData] *)

(** What the environment answers to one invocation of [fetchData]: how the
    two [fetch] promises settle, which settled first, and the string
    [new Date().toLocaleTimeString()] returns when the answers are in. *)
Record Cycle : Type := mkCycle {
  ethRes : settled Response;
  btcRes : settled Response;
  btc_settles_first : bool;
  now : string
}.

(** The array literal [[...h.current.slice(-keep), { time: now, value:
    j.data.totalNetInflow }]]: the spread operand is evaluated first, then
    the object literal (whose property reads may throw), then the new array
    exists. *)
Definition spread_and_push (keep : Z) (h : loc) (now_ : string) (j : jsval) : M loc :=
  tmp <- array_slice h (- keep) ;;
  kept <- read tmp ;;
  d <- get_prop j "data" ;;
  v <- get_prop d "totalNetInflow" ;;
  alloc (kept ++ [mkHistoryItem now_ v]).

(** The body of the [try] block, statement by statement.  [keep] is the
    literal 19 of the source (lines 153 and 157). *)
Definition fetchData_try (keep : Z) (c : Cycle) : M unit :=
  rs <- await (Promise_all (ethRes c) (btcRes c) (btc_settles_first c)) ;;
  ethJson <- await (json (fst rs)) ;;
  btcJson <- await (json (snd rs)) ;;
  let now_ := now c in
  eh <- get_ethHistoryRef ;;
  eh' <- spread_and_push keep eh now_ ethJson ;;
  set_ethHistoryRef eh' ;;;
  bh <- get_btcHistoryRef ;;
  bh' <- spread_and_push keep bh now_ btcJson ;;
  set_btcHistoryRef bh' ;;;
  ed <- get_prop ethJson "data" ;;
  setEthData ed ;;;
  bd <- get_prop btcJson "data" ;;
  setBtcData bd.

Definition fetchData_with (keep : Z) (c : Cycle) : M unit :=
  try_catch (fetchData_try keep c) console_error.

(** The source's [fetchData]. *)
Definition fetchData : Cycle -> M unit := fetchData_with 19.

(** State after one cycle, and after a sequence of cycles, oldest first. *)
Definition cycle_with (keep : Z) (s : AppState) (c : Cycle) : AppState :=
  snd (fetchData_with keep c s).

Definition cycle : AppState -> Cycle -> AppState := cycle_with 19.

Definition cycles_with (keep : Z) (s : AppState) (cs : list Cycle) : AppState :=
  fold_left (cycle_with keep) cs s.

Definition cycles : AppState -> list Cycle -> AppState := cycles_with 19.

(** State at mount: [useState(null)] twice, [useRef([])] twice (two
    distinct empty arrays). *)
Definition initial : AppState :=
  mkAppState VNull VNull 0%nat 1%nat [[]; []] [].

(** ** What [App] renders *)

Record AssetCardProps : Type := mkAssetCardProps {
  title : string;
  data : jsval;
  history : loc
}.

(** The two [<AssetCard .../>] elements of lines 178 and 179: [history] is
    the ref's current array itself. *)
Definition App (s : AppState) : AssetCardProps * AssetCardProps :=
  (mkAssetCardProps "Ethereum (ETHUSDT)" (ethData s) (ethHistoryRef s),
   mkAssetCardProps "Bitcoin (BTCUSDT)" (btcData s) (btcHistoryRef s)).

(** Contents of the two history arrays. *)
Definition ethHistory (s : AppState) : list HistoryItem :=
  contents (heap s) (ethHistoryRef s).
Definition btcHistory (s : AppState) : list HistoryItem :=
  contents (heap s) (btcHistoryRef s).

(** ** Sample payloads used by the examples below *)

Definition sample (total : Z) (stamp : Z) : jsval :=
  VObject [("totalNetInflow", VNumber total);
           ("bigVolumeNetInflow", VNumber 1);
           ("buyMakerBigVolume", VNumber 2);
           ("buyTakerBigVolume", VNumber 3);
           ("mediumVolumeNetInflow", VNumber 4);
           ("smallVolumeNetInflow", VNumber 5);
           ("updateTimestamp", VNumber stamp)].

(** A response whose body is the JSON text of [{"code": "000000", "data": d}]. *)
Definition ok_response (d : jsval) : settled Response :=
  Fulfilled (mkResponse (Fulfilled (VObject [("code", VString "000000"); ("data", d)]))).

Definition ok_cycle (t : string) (eth btc : jsval) : Cycle :=
  mkCycle (ok_response eth) (ok_response btc) false t.


(** ** Vocabulary for the statements *)

(** What [await (await fetch(..)).json()] yields for one instrument. *)
Definition body (r : settled Response) : settled jsval :=
  match r with
  | Fulfilled resp => json resp
  | Rejected e => Rejected e
  end.

(** The instrument's request fails: the [fetch] promise rejects, or the
    body is not JSON. *)
Definition fetch_fails (r : settled Response) : bool :=
  match body r with
  | Fulfilled _ => false
  | Rejected _ => true
  end.

(** What a cycle reads from an instrument's response when every read goes
    through: [(j.data, j.data.totalNetInflow)]. *)
Definition delivered (r : settled Response) : option (jsval * jsval) :=
  match body r with
  | Rejected _ => None
  | Fulfilled j =>
      match prop_of j "data" with
      | None => None
      | Some d =>
          match prop_of d "totalNetInflow" with
          | None => None
          | Some v => Some (d, v)
          end
      end
  end.

(** Both refs name allocated arrays. *)
Definition wf (s : AppState) : Prop :=
  (ethHistoryRef s < length (heap s))%nat /\ (btcHistoryRef s < length (heap s))%nat.

Definition log (e : exn) (s : AppState) : AppState :=
  mkAppState (ethData s) (btcData s) (ethHistoryRef s) (btcHistoryRef s)
             (heap s) (trace s ++ [ConsoleError e]).

(** Every read of the cycle goes through for both instruments. *)
Definition successful (c : Cycle) : bool :=
  match delivered (ethRes c), delivered (btcRes c) with
  | Some _, Some _ => true
  | _, _ => false
  end.

(** The history point a successful cycle appends for the instrument whose
    response is [r c]. *)
Definition point (r : Cycle -> settled Response) (c : Cycle) : option HistoryItem :=
  match delivered (r c) with
  | Some (_, v) => Some (mkHistoryItem (now c) v)
  | None => None
  end.

Definition points (r : Cycle -> settled Response) (cs : list Cycle) : list HistoryItem :=
  omap (point r) cs.

(** The last [n] elements of a sequence, in order. *)
Definition most_recent {A} (n : nat) (xs : list A) : list A :=
  drop (length xs - n) xs.

(** The shape the type [AssetData] promises: the six numeric fields and a
    numeric [updateTimestamp]. *)
Definition has_number (k : string) (v : jsval) : bool :=
  match prop_of v k with
  | Some (VNumber _) => true
  | _ => false
  end.

Definition is_AssetData (v : jsval) : bool :=
  match v with
  | VObject _ =>
      has_number "totalNetInflow" v && has_number "bigVolumeNetInflow" v &&
      has_number "buyMakerBigVolume" v && has_number "buyTakerBigVolume" v &&
      has_number "mediumVolumeNetInflow" v && has_number "smallVolumeNetInflow" v &&
      has_number "updateTimestamp" v
  | _ => false
  end.

(** ** A consumer that writes

    [AssetCardProps.history] has the mutable type [HistoryItem[]].  This is
    [a.push(x)] on the array at [l], the write such a consumer could do. *)
Definition array_push (l : loc) (x : HistoryItem) : M unit :=
  fun s => (Normal tt,
            mkAppState (ethData s) (btcData s) (ethHistoryRef s) (btcHistoryRef s)
                       (<[l := contents (heap s) l ++ [x]]> (heap s)) (trace s)).

(** ** The effect of [useEffect] and the event loop

    [mounted] tells whether the component is still mounted; [clock] counts
    milliseconds since mount; [interval] is the timer made by
    [setInterval] (its next firing time and its period), [None] when there
    is none; its callback is always [fetchData]; [started] lists the times
    at which [fetchData] was invoked, oldest first, and an invocation is
    named by its index there; [pending] lists the invocations whose awaits
    have not all settled.

    An invocation touches the state only after its last [await] (lines
    150-162 hold no [await]), so the event loop runs that part as one
    step, at the moment the awaits have settled. *)
Record Timer : Type := mkTimer { next : Z; period : Z }.

Record Runtime : Type := mkRuntime {
  app : AppState;
  mounted : bool;
  clock : Z;
  interval : option Timer;
  pending : list nat;
  started : list Z
}.

(** Calling [fetchData]: it runs up to its first [await], having issued
    the two requests. *)
Definition invoke (r : Runtime) : Runtime :=
  mkRuntime (app r) (mounted r) (clock r) (interval r)
            (pending r ++ [length (started r)]) (started r ++ [clock r]).

(** [setInterval(fetchData, ms)] and [clearInterval(interval)]. *)
Definition setInterval (ms : Z) (r : Runtime) : Runtime :=
  mkRuntime (app r) (mounted r) (clock r) (Some (mkTimer (clock r + ms) ms))
            (pending r) (started r).

Definition clearInterval (r : Runtime) : Runtime :=
  mkRuntime (app r) (mounted r) (clock r) None (pending r) (started r).

(** The effect callback (lines 168-169) and its cleanup (line 170). *)
Definition useEffect (r : Runtime) : Runtime := setInterval 3000 (invoke r).
Definition cleanup (r : Runtime) : Runtime := clearInterval r.

(** The component right after mounting. *)
Definition mount : Runtime := useEffect (mkRuntime initial true 0 None [] []).

(** Unmounting runs the cleanup of the effect. *)
Definition unmount (r : Runtime) : Runtime :=
  let r' := cleanup r in
  mkRuntime (app r') false (clock r') (interval r') (pending r') (started r').

(** React drops the state updates of an unmounted component: the setters
    are still called, the two cells keep their values.  The refs are plain
    objects and are written as before. *)
Definition discard_setState (old new : AppState) : AppState :=
  mkAppState (ethData old) (btcData old) (ethHistoryRef new) (btcHistoryRef new)
             (heap new) (trace new).

(** The state after the continuation of an invocation has run. *)
Definition settle (r : Runtime) (c : Cycle) : AppState :=
  if mounted r then cycle (app r) c
  else discard_setState (app r) (cycle (app r) c).

(** What the event loop can run next: the timer's callback, the
    continuation of a pending invocation whose awaits have settled as [c]
    says, or the unmounting of the component. *)
Inductive event : Type :=
| TimerFires
| Settles (id : nat) (c : Cycle)
| Unmount.

Definition step (r : Runtime) (e : event) : option Runtime :=
  match e with
  | TimerFires =>
      match interval r with
      | Some t =>
          Some (invoke (mkRuntime (app r) (mounted r) (next t)
                                  (Some (mkTimer (next t + period t) (period t)))
                                  (pending r) (started r)))
      | None => None
      end
  | Settles id c =>
      if bool_decide (id ∈ pending r)
      then Some (mkRuntime (settle r c) (mounted r) (clock r) (interval r)
                           (filter (fun j => j <> id) (pending r)) (started r))
      else None
  | Unmount => Some (unmount r)
  end.

Fixpoint run (r : Runtime) (es : list event) : option Runtime :=
  match es with
  | [] => Some r
  | e :: es' =>
      match step r e with
      | Some r' => run r' es'
      | None => None
      end
  end.

(** A run of [n] successful cycles, the [i]-th delivering [i] for ETH and
    [- i] for BTC. *)
Definition demo_cycles (n : nat) : list Cycle :=
  map (fun i => ok_cycle "12:00:00" (sample (Z.of_nat i) 0) (sample (- Z.of_nat i) 0))
      (seq 0 n).

(** The four polls of the scenario of the specification. *)
Definition scenario : list Cycle :=
  [ok_cycle "12:00:00" (sample 10 1) (sample 1 1);
   ok_cycle "12:00:03" (sample (-5) 2) (sample 2 2);
   ok_cycle "12:00:06" (sample 20 3) (sample 3 3);
   ok_cycle "12:00:09" (sample 30 4) (sample 4 4)].

(** A cycle in which the ETHUSDT request fails at the network and the
    BTCUSDT request delivers a complete sample. *)
Definition eth_down : Cycle :=
  mkCycle (Rejected (Rejection "Failed to fetch")) (ok_response (sample 7 1))
          false "12:00:00".

(** A cycle in which ETHUSDT delivers a complete sample and the BTCUSDT
    body is [{"code": "000000", "data": null}]. *)
Definition btc_null : Cycle := ok_cycle "12:00:00" (sample 10 1) VNull.

(** A cycle in which the ETHUSDT body is [{"code": "000000", "data": {}}]:
    every field of the sample is missing. *)
Definition eth_empty : Cycle := ok_cycle "12:00:00" (VObject []) (sample 7 1).

(** A cycle in which the ETHUSDT body is [{"code": "000000", "data": null}]
    and BTCUSDT delivers a complete sample. *)
Definition eth_null : Cycle := ok_cycle "12:00:00" VNull (sample 7 1).

(** The network call succeeded ([fetch] fulfilled) and the cycle's reads
    of the response do not all go through: the body is not JSON, or it is
    [null], or its [data] is [null] or [undefined]. *)
Definition unreadable (r : settled Response) : bool :=
  match r, delivered r with
  | Fulfilled _, None => true
  | _, _ => false
  end.

(** The nominal schedule: invocation [k] of [fetchData] at [3000 * k] ms. *)
Definition schedule (n : nat) : list Z :=
  map (fun k => 3000 * Z.of_nat k) (seq 0 n).

(** Every invocation so far was on schedule, and the timer, if there is
    one, has period 3000 and fires next at the next point of the schedule. *)
Definition on_schedule (r : Runtime) : Prop :=
  started r = schedule (length (started r)) /\
  forall t, interval r = Some t ->
            period t = 3000 /\ next t = 3000 * Z.of_nat (length (started r)).

(** ** Vocabulary for runs in which cycles may fail *)

(** The cycle reaches the assignment of line 152: ETHUSDT's reads go
    through and the BTCUSDT body has parsed. *)
Definition eth_appends (c : Cycle) : bool :=
  match delivered (ethRes c) with
  | Some _ => negb (fetch_fails (btcRes c))
  | None => false
  end.

(** The [data] value of the last successful cycle of a run for the
    instrument whose response is [r c]; [null] when no cycle succeeded. *)
Definition latest (r : Cycle -> settled Response) (cs : list Cycle) : jsval :=
  match last (List.filter successful cs) with
  | Some c => match delivered (r c) with
              | Some (d, _) => d
              | None => VNull
              end
  | None => VNull
  end.

Definition is_ConsoleError (e : effect) : bool :=
  match e with
  | ConsoleError _ => true
  | _ => false
  end.

Definition is_SetEthData (e : effect) : bool :=
  match e with
  | SetEthData _ => true
  | _ => false
  end.

Definition is_SetBtcData (e : effect) : bool :=
  match e with
  | SetBtcData _ => true
  | _ => false
  end.

Definition is_TimerFires (e : event) : bool :=
  match e with
  | TimerFires => true
  | _ => false
  end.

Definition is_Unmount (e : event) : bool :=
  match e with
  | Unmount => true
  | _ => false
  end.

(** The answers the settled invocations of a run got, in the order in
    which they settled. *)
Definition settled_cycles (es : list event) : list Cycle :=
  omap (fun e => match e with
                 | Settles _ c => Some c
                 | _ => None
                 end) es.

(** The invocations a run has settled, in settle order. *)
Definition settled_ids (es : list event) : list nat :=
  omap (fun e => match e with
                 | Settles id _ => Some id
                 | _ => None
                 end) es.

(** The invocations [ids] have settled, once each; the pending ones are
    exactly the started ones that have not settled. *)
Definition accounted (r : Runtime) (ids : list nat) : Prop :=
  NoDup ids /\
  NoDup (pending r) /\
  (forall i, i ∈ pending r <-> (i < length (started r))%nat /\ i ∉ ids) /\
  (forall i, i ∈ ids -> (i < length (started r))%nat).

(** The history point a cycle appends for each instrument, if any: BTCUSDT
    gets one when the cycle is successful, ETHUSDT as soon as the
    assignment of line 152 is reached. *)
Definition appended_eth (c : Cycle) : option HistoryItem :=
  if eth_appends c then point ethRes c else None.

Definition appended_btc (c : Cycle) : option HistoryItem :=
  if successful c then point btcRes c else None.

(** ** The presentational components

    A rendered tree: text, or an element with its tag, its props and its
    children.  Function components of this file ([TotalInflow],
    [FlowValue], [AssetCard]) are expanded where they are used, after the
    body of the component that uses them has run; the components of
    recharts stay elements with the props the source gives them. *)
Inductive attr : Type :=
| AString (s : string)
| ANumber (n : Z)
| ABool (b : bool)
| AArray (l : loc).

Inductive element : Type :=
| Text (s : string)
| Element (tag : string) (attrs : list (string * attr)) (children : list element).

(** [n > 0] and [n === 0] on numbers. *)
Definition number_positive (n : number) : bool :=
  match n with
  | Finite q => (0 <? Qnum q)%Z
  | Infinite negative => negb negative
  end.

Definition number_zero (n : number) : bool :=
  match n with
  | Finite q => (Qnum q =? 0)%Z
  | Infinite _ => false
  end.

(** [!v] is [negb (truthy v)]. *)
Definition truthy (v : jsval) : bool :=
  match v with
  | VUndefined | VNull => false
  | VBool b => b
  | VNumber n => negb (number_zero n)
  | VString s => negb (String.eqb s "")
  | VArray _ | VObject _ => true
  end.

Definition primitive (v : jsval) : bool :=
  match v with
  | VArray _ | VObject _ => false
  | _ => true
  end.

(** A property read in an expression: the value, or the [TypeError]. *)
Definition read_prop (v : jsval) (k : string) : outcome jsval :=
  match prop_of v k with
  | Some x => Normal x
  | None => Throw (TypeError k)
  end.

Definition and_then {A B} (m : outcome A) (k : A -> outcome B) : outcome B :=
  match m with
  | Normal a => k a
  | Throw e => Throw e
  end.

Notation "x <~ m ;; k" := (and_then m (fun x => k))
  (at level 90, m at next level, right associativity).

Definition className (c : string) : string * attr := ("className", AString c).

(** Child [i] of an element, the prop [k] of an element, and the element
    reached by a path of child indices. *)
Definition child (i : nat) (e : element) : option element :=
  match e with
  | Text _ => None
  | Element _ _ children => children !! i
  end.

Fixpoint own_attr (k : string) (attrs : list (string * attr)) : option attr :=
  match attrs with
  | [] => None
  | (k', a) :: rest => if String.eqb k k' then Some a else own_attr k rest
  end.

Definition attr_of (k : string) (e : element) : option attr :=
  match e with
  | Text _ => None
  | Element _ attrs _ => own_attr k attrs
  end.

Fixpoint descend (path : list nat) (e : element) : option element :=
  match path with
  | [] => Some e
  | i :: path' => match child i e with
                  | Some e' => descend path' e'
                  | None => None
                  end
  end.

(** The seven fields [AssetCard] reads. *)
Definition AssetData_fields : list string :=
  ["totalNetInflow"; "bigVolumeNetInflow"; "buyMakerBigVolume"; "buyTakerBigVolume";
   "mediumVolumeNetInflow"; "smallVolumeNetInflow"; "updateTimestamp"].

(** None of the seven fields of [d] is an array or an object (a missing
    field reads as [undefined]). *)
Definition fields_primitive (d : jsval) : bool :=
  forallb (fun k => primitive (default VUndefined (prop_of d k))) AssetData_fields.

Section Presentation.

(** What the host provides.  On a primitive [p], where no conversion
    throws: [Number(p).toLocaleString('en-US', { maximumFractionDigits: 2 })],
    [new Date(p).toLocaleTimeString()], and whether the number a string
    converts to is greater than 0.  On an array: its conversion to a
    primitive ([Array.prototype.toString], which throws when the
    conversion of an element throws). *)
Variable toLocaleString : jsval -> string.
Variable toLocaleTimeString : jsval -> string.
Variable string_positive : string -> bool.
Variable Array_toPrimitive : list jsval -> outcome jsval.

(** The conversion to a primitive that [v > 0], [Number(v)] and
    [new Date(v)] start with.  For an object made by [JSON.parse], the
    inherited [valueOf] returns the object itself, so [toString] decides:
    an own property [toString] is a JSON value, not a function, and the
    conversion throws a [TypeError]; without one, the inherited [toString]
    gives ["[object Object]"]. *)
Definition ToPrimitive (v : jsval) : outcome jsval :=
  match v with
  | VObject props =>
      match own_property "toString" props with
      | Some _ => Throw (TypeError "toString")
      | None => Normal (VString "[object Object]")
      end
  | VArray xs => Array_toPrimitive xs
  | _ => Normal v
  end.

(** [v > 0]: the primitive is converted to a number ([undefined] to
    [NaN], [null] to 0, [true] to 1) and compared. *)
Definition greater_than_0 (v : jsval) : outcome bool :=
  p <~ ToPrimitive v ;;
  Normal (match p with
          | VUndefined | VNull => false
          | VBool b => b
          | VNumber n => number_positive n
          | VString s => string_positive s
          | VArray _ | VObject _ => false
          end).

Definition formatNumber (num : jsval) : outcome string :=
  p <~ ToPrimitive num ;;
  Normal (toLocaleString p).

(** [new Date(v).toLocaleTimeString()]. *)
Definition Date_toLocaleTimeString (v : jsval) : outcome string :=
  p <~ ToPrimitive v ;;
  Normal (toLocaleTimeString p).

Definition TotalInflow (value : jsval) : outcome element :=
  isPositive <~ greater_than_0 value ;;
  formatted <~ formatNumber value ;;
  Normal (Element "div"
    [className
       (String.append "p-4 rounded-xl text-center font-bold text-2xl shadow-inner "
          (if isPositive then "bg-green-100 text-green-700"
           else "bg-red-100 text-red-700"))]
    [Text "💰 Total Net Inflow: "; Text formatted]).

Definition FlowValue (label : string) (value : jsval) (tooltip : string)
  : outcome element :=
  isPositive <~ greater_than_0 value ;;
  formatted <~ formatNumber value ;;
  Normal (Element "div" [className "flex justify-between text-lg text-gray-700"]
    [Element "span" [className "font-medium"; ("title", AString tooltip)]
       [Text label; Text ":"];
     Element "span"
       [className (if isPositive then "text-green-600" else "text-red-600")]
       [Text formatted]]).

(** The body of [AssetCard] evaluates the props of its elements in source
    order (the comparison of line 91 and the date of line 126 among them);
    React then renders the [TotalInflow] and [FlowValue] children in
    order. *)
Definition AssetCard (props : AssetCardProps) : outcome element :=
  let title := title props in
  let data := data props in
  let history := history props in
  if negb (truthy data) then
    Normal (Element "div"
              [className "bg-white shadow-xl rounded-2xl p-6 w-full text-center text-gray-500 text-xl"]
              [Text "Cargando "; Text title; Text "..."])
  else
    total <~ read_prop data "totalNetInflow" ;;
    total' <~ read_prop data "totalNetInflow" ;;
    line_positive <~ greater_than_0 total' ;;
    big <~ read_prop data "bigVolumeNetInflow" ;;
    buyMaker <~ read_prop data "buyMakerBigVolume" ;;
    buyTaker <~ read_prop data "buyTakerBigVolume" ;;
    medium <~ read_prop data "mediumVolumeNetInflow" ;;
    small <~ read_prop data "smallVolumeNetInflow" ;;
    stamp <~ read_prop data "updateTimestamp" ;;
    updated <~ Date_toLocaleTimeString stamp ;;
    headline <~ TotalInflow total ;;
    row1 <~ FlowValue "Big Volume Net Inflow" big "Flujo neto de grandes órdenes" ;;
    row2 <~ FlowValue "Buy Maker Big Volume" buyMaker
                      "Grandes órdenes de compra (limit orders)" ;;
    row3 <~ FlowValue "Buy Taker Big Volume" buyTaker
                      "Grandes órdenes de compra (market orders)" ;;
    row4 <~ FlowValue "Medium Volume Net Inflow" medium
                      "Flujo neto de órdenes medianas" ;;
    row5 <~ FlowValue "Small Volume Net Inflow" small
                      "Flujo neto de órdenes pequeñas" ;;
    Normal (Element "div"
      [className "bg-white shadow-2xl rounded-3xl p-8 w-full max-w-xl space-y-6 transition hover:scale-[1.01]"]
      [Element "h3" [className "text-3xl font-bold text-gray-800 mb-2"] [Text title];
       headline;
       Element "div" [className "w-full h-64"]
         [Element "ResponsiveContainer" []
            [Element "LineChart" [("data", AArray history)]
               [Element "CartesianGrid" [("strokeDasharray", AString "3 3")] [];
                Element "XAxis" [("dataKey", AString "time")] [];
                Element "YAxis" [] [];
                Element "Tooltip" [] [];
                Element "Line"
                  [("type", AString "monotone");
                   ("dataKey", AString "value");
                   ("stroke", AString (if line_positive then "#16a34a"
                                       else "#dc2626"));
                   ("strokeWidth", ANumber 3);
                   ("dot", ABool false)] []]]];
       row1; row2; row3; row4; row5;
       Element "div" [className "text-sm text-gray-400 pt-2 border-t border-gray-200"]
         [Text "Última actualización: "; Text updated]]).

(** What [App] returns (lines 173-182), with the two cards rendered, the
    ETHUSDT card first. *)
Definition App_view (s : AppState) : outcome element :=
  eth <~ AssetCard (fst (App s)) ;;
  btc <~ AssetCard (snd (App s)) ;;
  Normal (Element "div"
    [className "min-h-screen bg-gradient-to-br from-gray-100 to-blue-100 p-6"]
    [Element "h1" [className "text-4xl font-extrabold text-center text-gray-900 mb-12"]
       [Text "📊 Capital Flow Dashboard"];
     Element "div"
       [className "flex flex-col md:flex-row justify-center items-stretch gap-8"]
       [eth; btc]]).

End Presentation.

(** The card shown while there is no sample. *)
Definition placeholder (title : string) : element :=
  Element "div"
    [className "bg-white shadow-xl rounded-2xl p-6 w-full text-center text-gray-500 text-xl"]
    [Text "Cargando "; Text title; Text "..."].

(** Stand-ins for the host's functions, for the examples. *)
Definition demo_toLocaleString (v : jsval) : string := "0".
Definition demo_toLocaleTimeString (v : jsval) : string := "12:00:00".
Definition demo_string_positive (s : string) : bool := false.
Definition demo_Array_toPrimitive (xs : list jsval) : outcome jsval :=
  Normal (VString "").

(** A sample whose [totalNetInflow] is the object [{"toString": 0}]. *)
Definition odd_sample : jsval :=
  VObject [("totalNetInflow", VObject [("toString", VNumber 0)])].

(** * Properties *)

Lemma contents_app_l (h h' : store) (l : loc) :
  (l < length h)%nat -> contents (h ++ h') l = contents h l.
Proof. intros Hl. unfold contents. by rewrite lookup_app_l. Qed.

Lemma contents_fresh (h : store) (xs : list HistoryItem) (h' : store) :
  contents (h ++ xs :: h') (length h) = xs.
Proof. unfold contents. by rewrite list_lookup_middle. Qed.

Lemma contents_app_r (h h' : store) (l n : loc) :
  l = (length h + n)%nat -> contents (h ++ h') l = contents h' n.
Proof.
  intros ->. unfold contents. rewrite lookup_app_r by lia.
  by replace (length h + n - length h)%nat with n by lia.
Qed.

Ltac run_cycle :=
  cbv [fetchData_with try_catch fetchData_try spread_and_push array_slice
       bind await ret throw get_prop alloc read console_error
       get_ethHistoryRef get_btcHistoryRef set_ethHistoryRef set_btcHistoryRef
       setEthData setBtcData]; cbn.

Ltac use_reads :=
  repeat match goal with
         | H : prop_of ?v ?k = _ |- context [prop_of ?v ?k] => rewrite H; cbn
         end.

(** A cycle in which every read goes through for both instruments. *)
Lemma cycle_success keep c s ed ev bd bv :
  delivered (ethRes c) = Some (ed, ev) ->
  delivered (btcRes c) = Some (bd, bv) ->
  fetchData_with keep c s =
    (Normal tt,
     let e' := slice (- keep) (contents (heap s) (ethHistoryRef s)) in
     let h1 := heap s ++ [e'; e' ++ [mkHistoryItem (now c) ev]] in
     let b' := slice (- keep) (contents h1 (btcHistoryRef s)) in
     mkAppState ed bd (S (length (heap s))) (3 + length (heap s))%nat
                (h1 ++ [b'; b' ++ [mkHistoryItem (now c) bv]])
                (trace s ++ [SetEthData ed; SetBtcData bd])).
Proof.
  intros E B. unfold delivered, body in *.
  destruct c as [[[[ej|?]]|?] [[[bj|?]]|?] bf t]; try discriminate; cbn in *.
  destruct (prop_of ej "data") as [ed'|] eqn:E1; [|discriminate].
  destruct (prop_of ed' "totalNetInflow") as [ev'|] eqn:E2; [|discriminate].
  destruct (prop_of bj "data") as [bd'|] eqn:B1; [|discriminate].
  destruct (prop_of bd' "totalNetInflow") as [bv'|] eqn:B2; [|discriminate].
  simplify_eq.
  run_cycle. use_reads.
  rewrite !contents_fresh, <- !app_assoc. cbn [app].
  rewrite !length_app. cbn [length].
  do 2 f_equal; lia.
Qed.

(** A cycle in which a request rejects or a body is not JSON: the [catch]
    block logs, nothing else happens. *)
Lemma cycle_rejected keep c s :
  fetch_fails (ethRes c) = true \/ fetch_fails (btcRes c) = true ->
  exists e, fetchData_with keep c s = (Normal tt, log e s).
Proof.
  unfold fetch_fails, body.
  destruct c as [[[[ej|e1]]|e1] [[[bj|e2]]|e2] bf t]; cbn;
    intros [?|?]; try discriminate; run_cycle; eauto.
Qed.

(** Both bodies parse, and ETH's [data] (or the body itself) is [null] or
    [undefined]: the throw comes after the [slice] of line 153 and before
    any assignment. *)
Lemma cycle_eth_nullish keep c s :
  fetch_fails (ethRes c) = false ->
  fetch_fails (btcRes c) = false ->
  delivered (ethRes c) = None ->
  exists k, fetchData_with keep c s =
    (Normal tt,
     log (TypeError k)
       (mkAppState (ethData s) (btcData s) (ethHistoryRef s) (btcHistoryRef s)
          (heap s ++ [slice (- keep) (contents (heap s) (ethHistoryRef s))])
          (trace s))).
Proof.
  unfold fetch_fails, delivered, body.
  destruct c as [[[[ej|?]]|?] [[[bj|?]]|?] bf t]; cbn; try discriminate.
  intros _ _ E.
  destruct (prop_of ej "data") as [ed|] eqn:E1.
  - destruct (prop_of ed "totalNetInflow") as [ev|] eqn:E2; [discriminate|].
    run_cycle. use_reads. eauto.
  - run_cycle. use_reads. eauto.
Qed.

(** ETH's reads go through and BTC's [data] is [null] or [undefined]: the
    throw comes at line 158, after the assignment of lines 152-155. *)
Lemma cycle_btc_nullish keep c s ed ev :
  delivered (ethRes c) = Some (ed, ev) ->
  fetch_fails (btcRes c) = false ->
  delivered (btcRes c) = None ->
  exists k, fetchData_with keep c s =
    (Normal tt,
     let e' := slice (- keep) (contents (heap s) (ethHistoryRef s)) in
     let h1 := heap s ++ [e'; e' ++ [mkHistoryItem (now c) ev]] in
     log (TypeError k)
       (mkAppState (ethData s) (btcData s) (S (length (heap s))) (btcHistoryRef s)
          (h1 ++ [slice (- keep) (contents h1 (btcHistoryRef s))])
          (trace s))).
Proof.
  unfold fetch_fails, delivered, body.
  destruct c as [[[[ej|?]]|?] [[[bj|?]]|?] bf t]; cbn; try discriminate.
  intros E _ B.
  destruct (prop_of ej "data") as [ed'|] eqn:E1; [|discriminate].
  destruct (prop_of ed' "totalNetInflow") as [ev'|] eqn:E2; [|discriminate].
  simplify_eq.
  destruct (prop_of bj "data") as [bd|] eqn:B1.
  - destruct (prop_of bd "totalNetInflow") as [bv|] eqn:B2; [discriminate|].
    run_cycle. use_reads. exists "totalNetInflow".
    rewrite !contents_fresh, <- !app_assoc. cbn [app]. unfold log; cbn.
    rewrite !length_app. cbn [length]. do 2 f_equal. lia.
  - run_cycle. use_reads. exists "data".
    rewrite !contents_fresh, <- !app_assoc. cbn [app]. unfold log; cbn.
    rewrite !length_app. cbn [length]. do 2 f_equal. lia.
Qed.

(** The four ways a cycle can go. *)
Lemma cycle_cases (c : Cycle) :
  (fetch_fails (ethRes c) = true \/ fetch_fails (btcRes c) = true) \/
  (fetch_fails (ethRes c) = false /\ fetch_fails (btcRes c) = false /\
   delivered (ethRes c) = None) \/
  (exists ed ev, delivered (ethRes c) = Some (ed, ev) /\
                 fetch_fails (btcRes c) = false /\ delivered (btcRes c) = None) \/
  (exists ed ev bd bv, delivered (ethRes c) = Some (ed, ev) /\
                       delivered (btcRes c) = Some (bd, bv)).
Proof.
  destruct (fetch_fails (ethRes c)) eqn:Fe; [by left; left|].
  destruct (fetch_fails (btcRes c)) eqn:Fb; [by left; right|].
  right.
  destruct (delivered (ethRes c)) as [[ed ev]|] eqn:De; [|by left].
  right.
  destruct (delivered (btcRes c)) as [[bd bv]|] eqn:Db.
  - right. by exists ed, ev, bd, bv.
  - left. by exists ed, ev.
Qed.

(** [fetchData] never lets an exception escape. *)
Lemma fetchData_with_normal keep c s : fst (fetchData_with keep c s) = Normal tt.
Proof.
  destruct (cycle_cases c) as [H|[(Fe & Fb & De)|[(ed & ev & De & Fb & Db)|
                                 (ed & ev & bd & bv & De & Db)]]].
  - destruct (cycle_rejected keep c s H) as [e ->]. done.
  - destruct (cycle_eth_nullish keep c s Fe Fb De) as [k ->]. done.
  - destruct (cycle_btc_nullish keep c s ed ev De Fb Db) as [k ->]. done.
  - by rewrite (cycle_success keep c s ed ev bd bv De Db).
Qed.

(** A cycle only adds arrays to the store. *)
Lemma cycle_with_heap keep s c :
  exists h', heap (cycle_with keep s c) = heap s ++ h'.
Proof.
  unfold cycle_with.
  destruct (cycle_cases c) as [H|[(Fe & Fb & De)|[(ed & ev & De & Fb & Db)|
                                 (ed & ev & bd & bv & De & Db)]]].
  - destruct (cycle_rejected keep c s H) as [e ->]. exists []. cbn.
    by rewrite app_nil_r.
  - destruct (cycle_eth_nullish keep c s Fe Fb De) as [k ->]. cbn. eauto.
  - destruct (cycle_btc_nullish keep c s ed ev De Fb Db) as [k ->]. cbn.
    rewrite <- app_assoc. eauto.
  - rewrite (cycle_success keep c s ed ev bd bv De Db). cbn.
    rewrite <- app_assoc. eauto.
Qed.

Lemma cycle_with_wf keep s c : wf s -> wf (cycle_with keep s c).
Proof.
  unfold cycle_with, wf. intros [He Hb].
  destruct (cycle_cases c) as [H|[(Fe & Fb & De)|[(ed & ev & De & Fb & Db)|
                                 (ed & ev & bd & bv & De & Db)]]].
  - destruct (cycle_rejected keep c s H) as [e ->]. done.
  - destruct (cycle_eth_nullish keep c s Fe Fb De) as [k ->]. cbn.
    rewrite length_app. cbn. lia.
  - destruct (cycle_btc_nullish keep c s ed ev De Fb Db) as [k ->]. cbn.
    rewrite !length_app. cbn. lia.
  - rewrite (cycle_success keep c s ed ev bd bv De Db). cbn.
    rewrite !length_app. cbn. lia.
Qed.

Lemma initial_wf : wf initial.
Proof. unfold wf, initial. cbn. lia. Qed.

Lemma cycles_with_wf keep cs : forall s, wf s -> wf (cycles_with keep s cs).
Proof.
  induction cs as [|c cs IH]; intros s Hs; [done|].
  apply IH. by apply cycle_with_wf.
Qed.

Lemma cycles_with_heap keep cs :
  forall s, exists h', heap (cycles_with keep s cs) = heap s ++ h'.
Proof.
  induction cs as [|c cs IH]; intros s.
  - exists []. cbn. by rewrite app_nil_r.
  - destruct (cycle_with_heap keep s c) as [h1 H1].
    destruct (IH (cycle_with keep s c)) as [h2 H2].
    exists (h1 ++ h2). cbn. unfold cycles_with in H2. rewrite H2, H1.
    by rewrite app_assoc.
Qed.

(** The two histories after a successful cycle. *)
Lemma cycle_success_histories keep c s ed ev bd bv :
  wf s ->
  delivered (ethRes c) = Some (ed, ev) ->
  delivered (btcRes c) = Some (bd, bv) ->
  let s' := cycle_with keep s c in
  ethData s' = ed /\ btcData s' = bd /\
  ethHistory s' = slice (- keep) (ethHistory s) ++ [mkHistoryItem (now c) ev] /\
  btcHistory s' = slice (- keep) (btcHistory s) ++ [mkHistoryItem (now c) bv].
Proof.
  intros [He Hb] De Db. unfold cycle_with, ethHistory, btcHistory.
  rewrite (cycle_success keep c s ed ev bd bv De Db). cbn.
  rewrite <- !app_assoc. cbn [app].
  rewrite (contents_app_r _ _ _ 1) by lia.
  rewrite (contents_app_r _ _ (S (S (S _))) 3) by lia.
  rewrite (contents_app_l (heap s)) by done.
  done.
Qed.

(** ** The sliding window *)

Lemma slice_negative {A} (n : nat) (xs : list A) :
  (0 < n)%nat -> slice (- Z.of_nat n) xs = most_recent n xs.
Proof.
  intros Hn. unfold slice, most_recent.
  destruct (Z.ltb_spec (- Z.of_nat n) 0) as [_|?]; [|lia].
  f_equal. lia.
Qed.

Lemma most_recent_length {A} (n : nat) (xs : list A) :
  length (most_recent n xs) = (n `min` length xs)%nat.
Proof. unfold most_recent. rewrite length_drop. lia. Qed.

Lemma most_recent_shrink {A} (n : nat) (xs : list A) :
  most_recent n (most_recent (S n) xs) = most_recent n xs.
Proof.
  unfold most_recent. rewrite drop_drop, length_drop. f_equal. lia.
Qed.

Lemma most_recent_snoc {A} (n : nat) (xs : list A) (x : A) :
  most_recent n xs ++ [x] = most_recent (S n) (xs ++ [x]).
Proof.
  unfold most_recent. rewrite length_app. cbn [length].
  replace (length xs + 1 - S n)%nat with (length xs - n)%nat by lia.
  rewrite drop_app_le by lia. done.
Qed.

(** One append: [[...h.slice(-n), x]] on a window of capacity [n + 1]. *)
Lemma window_step {A} (n : nat) (pre : list A) (x : A) :
  (0 < n)%nat ->
  slice (- Z.of_nat n) (most_recent (S n) pre) ++ [x] = most_recent (S n) (pre ++ [x]).
Proof.
  intros Hn. by rewrite slice_negative, most_recent_shrink, most_recent_snoc.
Qed.

Lemma successful_delivered (c : Cycle) :
  successful c = true ->
  exists ed ev bd bv,
    delivered (ethRes c) = Some (ed, ev) /\ delivered (btcRes c) = Some (bd, bv).
Proof.
  unfold successful.
  destruct (delivered (ethRes c)) as [[ed ev]|]; [|done].
  destruct (delivered (btcRes c)) as [[bd bv]|]; [|done].
  intros _. by exists ed, ev, bd, bv.
Qed.

Lemma points_cons (r : Cycle -> settled Response) (c : Cycle) (cs : list Cycle) :
  points r (c :: cs) =
    match point r c with
    | Some p => p :: points r cs
    | None => points r cs
    end.
Proof. reflexivity. Qed.

(** The window invariant along a run of successful cycles: each history is
    the most recent [n + 1] of everything accepted so far. *)
Lemma window_invariant (n : nat) (cs : list Cycle) :
  (0 < n)%nat ->
  Forall (fun c => successful c = true) cs ->
  forall (s : AppState) (pe pb : list HistoryItem),
    wf s ->
    ethHistory s = most_recent (S n) pe ->
    btcHistory s = most_recent (S n) pb ->
    let s' := cycles_with (Z.of_nat n) s cs in
    ethHistory s' = most_recent (S n) (pe ++ points ethRes cs) /\
    btcHistory s' = most_recent (S n) (pb ++ points btcRes cs).
Proof.
  intros Hn Hcs. induction Hcs as [|c cs Hc _ IH]; intros s pe pb Hs He Hb.
  - cbn. by rewrite !app_nil_r.
  - destruct (successful_delivered c Hc) as (ed & ev & bd & bv & De & Db).
    destruct (cycle_success_histories (Z.of_nat n) c s ed ev bd bv Hs De Db)
      as (_ & _ & He' & Hb').
    rewrite He, window_step in He' by done.
    rewrite Hb, window_step in Hb' by done.
    specialize (IH _ _ _ (cycle_with_wf _ s c Hs) He' Hb').
    rewrite !points_cons. unfold point. rewrite De, Db.
    rewrite <- !app_assoc in IH. exact IH.
Qed.

Lemma points_length (r : Cycle -> settled Response) (cs : list Cycle) :
  Forall (fun c => is_Some (delivered (r c))) cs ->
  length (points r cs) = length cs.
Proof.
  induction 1 as [|c cs [[d v] Hc] _ IH]; [done|].
  rewrite points_cons. unfold point. rewrite Hc. cbn. by rewrite IH.
Qed.

Lemma cycles_with_snoc keep s cs c :
  cycles_with keep s (cs ++ [c]) = cycle_with keep (cycles_with keep s cs) c.
Proof. unfold cycles_with. by rewrite fold_left_app. Qed.

Lemma forallb_successful (cs : list Cycle) :
  forallb successful cs = true -> Forall (fun c => successful c = true) cs.
Proof.
  induction cs as [|c cs IH]; cbn; [constructor|].
  intros [Hc Hcs]%andb_prop. constructor; auto.
Qed.

Lemma successful_all_delivered (r : Cycle -> settled Response) (cs : list Cycle) :
  r = ethRes \/ r = btcRes ->
  Forall (fun c => successful c = true) cs ->
  Forall (fun c => is_Some (delivered (r c))) cs.
Proof.
  intros Hr H. eapply Forall_impl; [exact H|]. intros c Hc. cbn beta.
  destruct (successful_delivered c Hc) as (ed & ev & bd & bv & De & Db).
  destruct Hr as [-> | ->]; eauto.
Qed.

Lemma delivered_total (r : settled Response) (d v : jsval) :
  delivered r = Some (d, v) -> prop_of d "totalNetInflow" = Some v.
Proof.
  unfold delivered. destruct (body r) as [j|]; [|done].
  destruct (prop_of j "data") as [d'|]; [|done].
  destruct (prop_of d' "totalNetInflow") as [v'|] eqn:E; [|done].
  by intros [= <- <-].
Qed.

Lemma points_app (r : Cycle -> settled Response) (cs cs' : list Cycle) :
  points r (cs ++ cs') = points r cs ++ points r cs'.
Proof. apply omap_app. Qed.

(** After a run that ends with a successful cycle, the latest samples are
    that cycle's two [data] values. *)
Lemma latest_samples keep s cs c ed ev bd bv :
  delivered (ethRes c) = Some (ed, ev) ->
  delivered (btcRes c) = Some (bd, bv) ->
  let s' := cycles_with keep s (cs ++ [c]) in
  ethData s' = ed /\ btcData s' = bd.
Proof.
  intros De Db. cbn. rewrite cycles_with_snoc. unfold cycle_with.
  by rewrite (cycle_success keep c _ ed ev bd bv De Db).
Qed.

(** ** Claims about the history window *)

(** C2. Bounded history.  The window keeps [keep] old points and adds one,
    so it holds [N = keep + 1] points ([keep] is the literal 19 of the
    source, hence [N = 20]).  After any run of successful cycles from the
    mounted state, each instrument's history is exactly the most recent
    [min N total] points accepted, in arrival order, and its length is
    [min N total]: once the window is full, each append drops the oldest
    point. *)
Theorem C2_bounded_history (keep : Z) (cs : list Cycle)
    (Hkeep : 1 <= keep) (Hcs : forallb successful cs = true) :
  let N := (Z.to_nat keep + 1)%nat in
  let s := cycles_with keep initial cs in
  ethHistory s = most_recent N (points ethRes cs) /\
  btcHistory s = most_recent N (points btcRes cs) /\
  length (ethHistory s) = (N `min` length cs)%nat /\
  length (btcHistory s) = (N `min` length cs)%nat.
Proof.
  intros N s. apply forallb_successful in Hcs.
  assert (Hn : (0 < Z.to_nat keep)%nat) by lia.
  destruct (window_invariant (Z.to_nat keep) cs Hn Hcs initial [] [] initial_wf)
    as [He Hb]; [done..|].
  rewrite Z2Nat.id in He, Hb by lia. rewrite !app_nil_l in He, Hb.
  replace (S (Z.to_nat keep)) with N in He, Hb by (unfold N; lia).
  fold s in He, Hb. rewrite He, Hb, !most_recent_length.
  rewrite !points_length by (apply successful_all_delivered; auto).
  done.
Qed.

(** The source's window (capacity 20) after 22 successful cycles. *)
Lemma C2_bounded_history_witness :
  1 <= 19 /\ forallb successful (demo_cycles 22) = true /\
  let N := (Z.to_nat 19 + 1)%nat in
  let s := cycles initial (demo_cycles 22) in
  ethHistory s = most_recent N (points ethRes (demo_cycles 22)) /\
  btcHistory s = most_recent N (points btcRes (demo_cycles 22)) /\
  length (ethHistory s) = (N `min` length (demo_cycles 22))%nat /\
  length (btcHistory s) = (N `min` length (demo_cycles 22))%nat.
Proof.
  split; [lia|]. split; [reflexivity|].
  apply (C2_bounded_history 19 (demo_cycles 22)); [lia | reflexivity].
Defined.

(** C5, as stated, fails: the window of the source holds 20 points and
    cannot be set to 3, so the four polls of the scenario leave all four
    values in the history and not [-5, 20, 30]. *)
Lemma C5_counterexample :
  forallb successful scenario = true /\
  map value (points ethRes scenario) =
    [VNumber 10; VNumber (-5); VNumber 20; VNumber 30] /\
  map value (ethHistory (cycles initial scenario)) =
    [VNumber 10; VNumber (-5); VNumber 20; VNumber 30] /\
  map value (ethHistory (cycles initial scenario)) <>
    [VNumber (-5); VNumber 20; VNumber 30].
Proof. repeat split; try reflexivity. discriminate. Qed.

(** C5, amended.  The window of the source holds 20 points.  Four
    successful cycles delivering 10, -5, 20, 30 for ETHUSDT, from mount,
    leave the history values [10, -5, 20, 30], nothing being evicted, and
    a latest sample whose [totalNetInflow] is 30. *)
Theorem C5_scenario_at_capacity_20 (cs : list Cycle)
    (Hcs : forallb successful cs = true)
    (Hvals : map value (points ethRes cs) =
             [VNumber 10; VNumber (-5); VNumber 20; VNumber 30]) :
  let s := cycles initial cs in
  map value (ethHistory s) = [VNumber 10; VNumber (-5); VNumber 20; VNumber 30] /\
  prop_of (ethData s) "totalNetInflow" = Some (VNumber 30).
Proof.
  intros s. apply forallb_successful in Hcs. split.
  - assert (H19 : (0 < 19)%nat) by lia.
    destruct (window_invariant 19 cs H19 Hcs initial [] [] initial_wf)
      as [He _]; [done..|].
    change (Z.of_nat 19) with 19 in He. fold (cycles initial cs) in He.
    fold s in He. rewrite app_nil_l in He.
    rewrite He. unfold most_recent.
    rewrite <- (length_map value (points ethRes cs)).
    rewrite <- skipn_map, Hvals. reflexivity.
  - destruct cs as [|c cs _] using rev_ind; [discriminate|].
    apply Forall_app in Hcs as [_ Hc]. apply Forall_inv in Hc.
    destruct (successful_delivered c Hc) as (ed & ev & bd & bv & De & Db).
    destruct (latest_samples 19 initial cs c ed ev bd bv De Db) as [Hd _].
    unfold s, cycles. rewrite Hd.
    rewrite points_app, map_app in Hvals.
    rewrite points_cons in Hvals. unfold point in Hvals. rewrite De in Hvals.
    cbn in Hvals.
    change [VNumber 10; VNumber (-5); VNumber 20; VNumber 30]
      with ([VNumber 10; VNumber (-5); VNumber 20] ++ [VNumber 30]) in Hvals.
    apply app_inj_tail in Hvals as [_ ->].
    by apply (delivered_total (ethRes c)).
Qed.

Lemma C5_scenario_at_capacity_20_witness :
  forallb successful scenario = true /\
  map value (points ethRes scenario) =
    [VNumber 10; VNumber (-5); VNumber 20; VNumber 30] /\
  let s := cycles initial scenario in
  map value (ethHistory s) = [VNumber 10; VNumber (-5); VNumber 20; VNumber 30] /\
  prop_of (ethData s) "totalNetInflow" = Some (VNumber 30).
Proof.
  split; [reflexivity|]. split; [reflexivity|].
  apply (C5_scenario_at_capacity_20 scenario); reflexivity.
Defined.

(** ** Claims about failures *)

Lemma unreadable_cases (r : settled Response) :
  unreadable r = true -> delivered r = None.
Proof. unfold unreadable. destruct r; [|done]. by destruct (delivered _). Qed.

(** What a cycle leaves alone when ETH's reads do not go through, and when
    BTC's do not. *)
Lemma cycle_eth_undelivered keep s c :
  wf s -> delivered (ethRes c) = None ->
  let s' := cycle_with keep s c in
  ethData s' = ethData s /\ btcData s' = btcData s /\
  ethHistory s' = ethHistory s /\ btcHistory s' = btcHistory s.
Proof.
  intros [He Hb] De. unfold cycle_with, ethHistory, btcHistory.
  destruct (cycle_cases c) as [H|[(Fe & Fb & _)|[(ed & ev & De' & _)|
                                 (ed & ev & bd & bv & De' & _)]]];
    [| |congruence..].
  - by destruct (cycle_rejected keep c s H) as [e ->].
  - destruct (cycle_eth_nullish keep c s Fe Fb De) as [k ->]. cbn.
    by rewrite !contents_app_l.
Qed.

Lemma cycle_btc_undelivered keep s c :
  wf s -> delivered (btcRes c) = None ->
  let s' := cycle_with keep s c in
  ethData s' = ethData s /\ btcData s' = btcData s /\
  btcHistory s' = btcHistory s.
Proof.
  intros [He Hb] Db. unfold cycle_with, btcHistory.
  destruct (cycle_cases c) as [H|[(Fe & Fb & De)|[(ed & ev & De & Fb & _)|
                                 (ed & ev & bd & bv & _ & Db')]]];
    [| | |congruence].
  - by destruct (cycle_rejected keep c s H) as [e ->].
  - destruct (cycle_eth_nullish keep c s Fe Fb De) as [k ->]. cbn.
    by rewrite !contents_app_l.
  - destruct (cycle_btc_nullish keep c s ed ev De Fb Db) as [k ->]. cbn.
    rewrite <- app_assoc. by rewrite !contents_app_l.
Qed.

(** C1, as stated, fails: with the ETHUSDT request down and a complete
    BTCUSDT sample delivered, BTCUSDT's latest sample and history stay as
    they were at mount. *)
Lemma C1_counterexample :
  fetch_fails (ethRes eth_down) = true /\
  delivered (btcRes eth_down) = Some (sample 7 1, VNumber 7) /\
  btcData (cycle initial eth_down) = VNull /\
  btcHistory (cycle initial eth_down) = [] /\
  btcData (cycle initial eth_down) <> sample 7 1.
Proof. repeat split; try reflexivity. discriminate. Qed.

(** C1, amended.  In a cycle where either instrument's fetch fails (the
    request rejects or the body is not JSON), the state after the cycle is
    the state before it plus one [console.error]: the failed instrument's
    latest sample and history are as before, and so are the other
    instrument's. *)
Theorem C1_failed_fetch_changes_nothing (s : AppState) (c : Cycle)
    (Hfail : fetch_fails (ethRes c) = true \/ fetch_fails (btcRes c) = true) :
  let s' := cycle s c in
  (exists e, s' = log e s) /\
  ethData s' = ethData s /\ ethHistory s' = ethHistory s /\
  btcData s' = btcData s /\ btcHistory s' = btcHistory s.
Proof.
  unfold cycle, cycle_with, ethHistory, btcHistory.
  destruct (cycle_rejected 19 c s Hfail) as [e He].
  unfold fetchData in *. rewrite He. cbn. repeat split; eauto.
Qed.

Lemma C1_failed_fetch_changes_nothing_witness :
  (fetch_fails (ethRes eth_down) = true \/ fetch_fails (btcRes eth_down) = true) /\
  let s' := cycle initial eth_down in
  (exists e, s' = log e initial) /\
  ethData s' = ethData initial /\ ethHistory s' = ethHistory initial /\
  btcData s' = btcData initial /\ btcHistory s' = btcHistory initial.
Proof.
  split; [left; reflexivity|].
  apply (C1_failed_fetch_changes_nothing initial eth_down). left; reflexivity.
Defined.

(** C3, as stated, fails: a [data] object with none of the seven fields
    is published as the latest ETHUSDT sample, and a history point with an
    [undefined] value is appended. *)
Lemma C3_counterexample :
  fetch_fails (ethRes eth_empty) = false /\
  is_AssetData (VObject []) = false /\
  ethData (cycle initial eth_empty) = VObject [] /\
  is_AssetData (ethData (cycle initial eth_empty)) = false /\
  ethHistory (cycle initial eth_empty) = [mkHistoryItem "12:00:00" VUndefined] /\
  ethHistory (cycle initial eth_empty) <> ethHistory initial.
Proof. repeat split; try reflexivity. discriminate. Qed.

(** C3, amended.  [fetchData] never lets an exception escape.  A response
    whose reads do not go through (body not JSON, body [null], or [data]
    [null] or [undefined]) leaves that instrument's latest sample and
    history, and the other instrument's latest sample, as they were.  No
    other check is made: in a cycle where the reads of both responses go
    through, each [data] value becomes the latest sample as it is,
    whatever fields it has, and its [totalNetInflow], defined or not, is
    appended to the history.  In every other cycle both latest samples
    stay as they were. *)
Theorem C3_only_unreadable_payloads_rejected (s : AppState) (c : Cycle)
    (Hwf : wf s) :
  let s' := cycle s c in
  fst (fetchData c s) = Normal tt /\
  (unreadable (ethRes c) = true ->
     ethData s' = ethData s /\ ethHistory s' = ethHistory s /\
     btcData s' = btcData s) /\
  (unreadable (btcRes c) = true ->
     btcData s' = btcData s /\ btcHistory s' = btcHistory s /\
     ethData s' = ethData s) /\
  (forall ed ev bd bv,
     delivered (ethRes c) = Some (ed, ev) ->
     delivered (btcRes c) = Some (bd, bv) ->
     ethData s' = ed /\ btcData s' = bd /\
     ethHistory s' = slice (-19) (ethHistory s) ++ [mkHistoryItem (now c) ev] /\
     btcHistory s' = slice (-19) (btcHistory s) ++ [mkHistoryItem (now c) bv]) /\
  (successful c = false ->
     ethData s' = ethData s /\ btcData s' = btcData s).
Proof.
  cbn zeta. split; [apply fetchData_with_normal|]. split; [|split; [|split]].
  - intros H%unreadable_cases.
    destruct (cycle_eth_undelivered 19 s c Hwf H) as (? & ? & ? & ?). auto.
  - intros H%unreadable_cases.
    destruct (cycle_btc_undelivered 19 s c Hwf H) as (? & ? & ?). auto.
  - intros ed ev bd bv De Db.
    apply (cycle_success_histories 19 c s ed ev bd bv Hwf De Db).
  - unfold successful. intros Hc.
    destruct (delivered (ethRes c)) as [[ed ev]|] eqn:De.
    + destruct (delivered (btcRes c)) as [[bd bv]|] eqn:Db; [discriminate|].
      destruct (cycle_btc_undelivered 19 s c Hwf Db) as (? & ? & ?). auto.
    + destruct (cycle_eth_undelivered 19 s c Hwf De) as (? & ? & ? & ?). auto.
Qed.

(** The theorem at three cycles from mount: BTCUSDT's [data] is [null]
    while ETHUSDT delivers a complete sample; ETHUSDT's [data] is [null];
    ETHUSDT's [data] is the empty object and both reads go through. *)
Lemma C3_only_unreadable_payloads_rejected_witness :
  wf initial /\
  (unreadable (btcRes btc_null) = true /\
   btcData (cycle initial btc_null) = btcData initial /\
   btcHistory (cycle initial btc_null) = btcHistory initial /\
   ethData (cycle initial btc_null) = ethData initial) /\
  (unreadable (ethRes eth_null) = true /\
   ethData (cycle initial eth_null) = ethData initial /\
   ethHistory (cycle initial eth_null) = ethHistory initial /\
   btcData (cycle initial eth_null) = btcData initial) /\
  (delivered (ethRes eth_empty) = Some (VObject [], VUndefined) /\
   delivered (btcRes eth_empty) = Some (sample 7 1, VNumber 7) /\
   ethData (cycle initial eth_empty) = VObject [] /\
   btcData (cycle initial eth_empty) = sample 7 1 /\
   ethHistory (cycle initial eth_empty) =
     slice (-19) (ethHistory initial) ++ [mkHistoryItem (now eth_empty) VUndefined] /\
   btcHistory (cycle initial eth_empty) =
     slice (-19) (btcHistory initial) ++ [mkHistoryItem (now eth_empty) (VNumber 7)]).
Proof.
  split; [exact initial_wf|].
  destruct (C3_only_unreadable_payloads_rejected initial btc_null initial_wf)
    as (_ & _ & Hb & _ & _).
  destruct (C3_only_unreadable_payloads_rejected initial eth_null initial_wf)
    as (_ & He & _).
  destruct (C3_only_unreadable_payloads_rejected initial eth_empty initial_wf)
    as (_ & _ & _ & Hd & _).
  split.
  { split; [reflexivity|]. exact (Hb eq_refl). }
  split.
  { split; [reflexivity|]. exact (He eq_refl). }
  split; [reflexivity|]. split; [reflexivity|].
  exact (Hd _ _ _ _ eq_refl eq_refl).
Defined.

(** C4 fails on the code: with a complete ETHUSDT sample and a BTCUSDT
    body whose [data] is [null], the cycle appends the ETHUSDT history
    point (line 152) and then throws at line 158, so the ETHUSDT latest
    sample is never replaced (line 161 is not reached). *)
Theorem C4_history_appended_sample_not_replaced :
  delivered (ethRes btc_null) = Some (sample 10 1, VNumber 10) /\
  ethHistory initial = [] /\
  ethHistory (cycle initial btc_null) = [mkHistoryItem "12:00:00" (VNumber 10)] /\
  ethData (cycle initial btc_null) = ethData initial /\
  ethData (cycle initial btc_null) = VNull /\
  trace (cycle initial btc_null) = [ConsoleError (TypeError "totalNetInflow")].
Proof. repeat split; reflexivity. Qed.

(** C9. Coupled latest-sample updates.  A cycle either calls both setters,
    [setEthData] then [setBtcData], with the two [data] values it read, or
    calls neither and logs one error, leaving both latest samples as they
    were: no cycle replaces exactly one of them. *)
Theorem C9_samples_replaced_together (s : AppState) (c : Cycle) :
  let s' := cycle s c in
  (exists ed bd,
     trace s' = trace s ++ [SetEthData ed; SetBtcData bd] /\
     ethData s' = ed /\ btcData s' = bd) \/
  ((exists e, trace s' = trace s ++ [ConsoleError e]) /\
   ethData s' = ethData s /\ btcData s' = btcData s).
Proof.
  unfold cycle, cycle_with. cbn zeta.
  destruct (cycle_cases c) as [H|[(Fe & Fb & De)|[(ed & ev & De & Fb & Db)|
                                 (ed & ev & bd & bv & De & Db)]]].
  - right. destruct (cycle_rejected 19 c s H) as [e ->]. cbn. eauto.
  - right. destruct (cycle_eth_nullish 19 c s Fe Fb De) as [k ->]. cbn. eauto.
  - right. destruct (cycle_btc_nullish 19 c s ed ev De Fb Db) as [k ->]. cbn. eauto.
  - left. rewrite (cycle_success 19 c s ed ev bd bv De Db). cbn. eauto.
Qed.

(** ** Claims about aliasing *)

Lemma cycles_heap_preserved (cs : list Cycle) (s : AppState) (l : nat) :
  (l < length (heap s))%nat ->
  contents (heap (cycles s cs)) l = contents (heap s) l.
Proof.
  intros Hl. destruct (cycles_with_heap 19 cs s) as [h' H].
  unfold cycles. rewrite H. by apply contents_app_l.
Qed.

(** C8, as stated, fails: the array [App] hands to the ETHUSDT card is the
    array the ref holds, so a [push] by the consumer is a [push] on the
    buffer of the engine, and the next cycle copies the pushed element
    into the new history. *)
Lemma C8_counterexample :
  let card := fst (App initial) in
  let x := mkHistoryItem "00:00:00" (VNumber 0) in
  let s := snd (array_push (history card) x initial) in
  history card = ethHistoryRef initial /\
  ethHistory initial = [] /\
  ethHistory s = [x] /\
  ethHistory s <> ethHistory initial /\
  ethHistory (cycle s (ok_cycle "12:00:00" (sample 10 1) (sample 7 1))) =
    [x; mkHistoryItem "12:00:00" (VNumber 10)].
Proof. repeat split; try reflexivity. discriminate. Qed.

(** C8, amended.  The sequence handed to a consumer is the ref's current
    array itself, not a copy.  No run of cycles changes any array that
    existed before it, so every sequence exposed earlier stays element for
    element as it was; a successful cycle points both refs at arrays
    allocated during that cycle. *)
Theorem C8_appends_allocate_new_arrays (s : AppState) (cs : list Cycle)
    (Hwf : wf s) :
  let cards := App s in
  history (fst cards) = ethHistoryRef s /\
  history (snd cards) = btcHistoryRef s /\
  (forall l : nat, (l < length (heap s))%nat ->
     contents (heap (cycles s cs)) l = contents (heap s) l) /\
  contents (heap (cycles s cs)) (history (fst cards)) = ethHistory s /\
  contents (heap (cycles s cs)) (history (snd cards)) = btcHistory s /\
  (forall c, successful c = true ->
     (length (heap s) <= ethHistoryRef (cycle s c))%nat /\
     (length (heap s) <= btcHistoryRef (cycle s c))%nat).
Proof.
  destruct Hwf as [He Hb]. cbn.
  split; [done|]. split; [done|].
  split; [intros l Hl; by apply cycles_heap_preserved|].
  split; [by apply cycles_heap_preserved|].
  split; [by apply cycles_heap_preserved|].
  intros c Hc.
  destruct (successful_delivered c Hc) as (ed & ev & bd & bv & De & Db).
  unfold cycle, cycle_with.
  rewrite (cycle_success 19 c s ed ev bd bv De Db). cbn. lia.
Qed.

Lemma C8_appends_allocate_new_arrays_witness :
  wf initial /\
  let cards := App initial in
  history (fst cards) = ethHistoryRef initial /\
  history (snd cards) = btcHistoryRef initial /\
  (forall l : nat, (l < length (heap initial))%nat ->
     contents (heap (cycles initial scenario)) l = contents (heap initial) l) /\
  contents (heap (cycles initial scenario)) (history (fst cards)) = ethHistory initial /\
  contents (heap (cycles initial scenario)) (history (snd cards)) = btcHistory initial /\
  (forall c, successful c = true ->
     (length (heap initial) <= ethHistoryRef (cycle initial c))%nat /\
     (length (heap initial) <= btcHistoryRef (cycle initial c))%nat).
Proof.
  split; [exact initial_wf|].
  exact (C8_appends_allocate_new_arrays initial scenario initial_wf).
Defined.

(** ** Claims about the timer *)

Lemma schedule_S (n : nat) : schedule (S n) = schedule n ++ [3000 * Z.of_nat n].
Proof. unfold schedule. by rewrite seq_S, map_app. Qed.

Lemma schedule_length (n : nat) : length (schedule n) = n.
Proof. unfold schedule. by rewrite length_map, length_seq. Qed.

Lemma mount_on_schedule : on_schedule mount.
Proof.
  split; [reflexivity|]. intros t [= <-]. split; reflexivity.
Qed.

Lemma step_on_schedule (r r' : Runtime) (e : event) :
  on_schedule r -> step r e = Some r' -> on_schedule r'.
Proof.
  intros [Hs Ht] Hstep. destruct e as [|id c|]; cbn in Hstep.
  - destruct (interval r) as [t|] eqn:Hi; [|discriminate].
    destruct (Ht t eq_refl) as [Hp Hn].
    injection Hstep as <-. split; cbn.
    + rewrite length_app. cbn [length].
      replace (length (started r) + 1)%nat with (S (length (started r))) by lia.
      fold (schedule (S (length (started r)))).
      rewrite schedule_S, <- Hs, Hn. done.
    + intros t' [= <-]. cbn. rewrite length_app. cbn [length]. lia.
  - destruct (bool_decide _); [|discriminate]. injection Hstep as <-. done.
  - injection Hstep as <-. split; [done|]. discriminate.
Qed.

Lemma run_on_schedule (es : list event) :
  forall r r', on_schedule r -> run r es = Some r' -> on_schedule r'.
Proof.
  induction es as [|e es IH]; intros r r' Hr Hrun; cbn in Hrun.
  - by injection Hrun as <-.
  - destruct (step r e) as [r1|] eqn:Hstep; [|discriminate].
    eapply IH; [|exact Hrun]. eapply step_on_schedule; eauto.
Qed.

Lemma run_app (es es' : list event) :
  forall r, run r (es ++ es') = match run r es with
                                | Some r' => run r' es'
                                | None => None
                                end.
Proof.
  induction es as [|e es IH]; intros r; cbn; [done|].
  destruct (step r e); [apply IH|done].
Qed.

(** Timer firings alone, from mount: none waits for a settle. *)
Lemma run_timer_only (n : nat) :
  exists r, run mount (repeat TimerFires n) = Some r /\
            started r = schedule (S n) /\
            pending r = seq 0 (S n) /\
            interval r = Some (mkTimer (3000 * Z.of_nat (S n)) 3000) /\
            app r = initial.
Proof.
  induction n as [|n (r & Hrun & Hs & Hp & Hi & Ha)].
  - exists mount. repeat split.
  - replace (repeat TimerFires (S n)) with (repeat TimerFires n ++ [TimerFires])
      by (by rewrite <- repeat_cons).
    rewrite run_app, Hrun. cbn [run step]. rewrite Hi.
    eexists. split; [reflexivity|].
    unfold invoke. cbn [started pending interval app clock next period].
    rewrite Hs, Hp, schedule_length, Ha.
    repeat split.
    + by rewrite (schedule_S (S n)).
    + by rewrite (seq_S (S n)).
    + do 2 f_equal. lia.
Qed.

Lemma run_unmounted (es : list event) :
  forall r r', interval r = None -> mounted r = false -> run r es = Some r' ->
               interval r' = None /\ mounted r' = false /\
               started r' = started r /\
               Forall (fun e => e <> TimerFires) es.
Proof.
  induction es as [|e es IH]; intros r r' Hi Hm Hrun; cbn in Hrun.
  - injection Hrun as <-. auto.
  - destruct e as [|id c|]; cbn in Hrun.
    + by rewrite Hi in Hrun.
    + destruct (bool_decide _); [|discriminate].
      apply IH in Hrun; [|exact Hi|exact Hm].
      destruct Hrun as (? & ? & ? & ?). auto.
    + apply IH in Hrun; [|reflexivity..].
      destruct Hrun as (? & ? & ? & ?). auto.
Qed.

(** C6. Fixed-rate polling.  In every state reached from mount, the
    invocations of [fetchData] so far were at 0, 3000, 6000, ... ms, and
    while the timer exists its period is 3000 ms and its callback can run
    next whatever invocations are still pending: it starts one more
    invocation at the scheduled time, re-arms 3000 ms later and leaves the
    pending ones pending.  With no response ever arriving, [n] firings
    leave [n + 1] invocations in flight. *)
Theorem C6_fixed_rate_timer (es : list event) (r : Runtime)
    (Hrun : run mount es = Some r) :
  started r = schedule (length (started r)) /\
  (forall t, interval r = Some t ->
     period t = 3000 /\ next t = 3000 * Z.of_nat (length (started r)) /\
     exists r', step r TimerFires = Some r' /\
                clock r' = next t /\
                started r' = started r ++ [next t] /\
                pending r' = pending r ++ [length (started r)] /\
                app r' = app r /\
                interval r' = Some (mkTimer (next t + 3000) 3000)) /\
  (forall n, exists r_n, run mount (repeat TimerFires n) = Some r_n /\
                         pending r_n = seq 0 (S n)).
Proof.
  destruct (run_on_schedule es mount r mount_on_schedule Hrun) as [Hs Ht].
  split; [exact Hs|]. split.
  - intros t Hi. destruct (Ht t Hi) as [Hp Hn]. split; [done|]. split; [done|].
    cbn. rewrite Hi, Hp. eexists. split; [reflexivity|]. done.
  - intros n. destruct (run_timer_only n) as (r_n & H1 & _ & H2 & _). eauto.
Qed.

Lemma C6_fixed_rate_timer_witness :
  exists r, run mount [TimerFires; Settles 1 btc_null; TimerFires] = Some r /\
  started r = schedule (length (started r)) /\
  (forall t, interval r = Some t ->
     period t = 3000 /\ next t = 3000 * Z.of_nat (length (started r)) /\
     exists r', step r TimerFires = Some r' /\
                clock r' = next t /\
                started r' = started r ++ [next t] /\
                pending r' = pending r ++ [length (started r)] /\
                app r' = app r /\
                interval r' = Some (mkTimer (next t + 3000) 3000)) /\
  (forall n, exists r_n, run mount (repeat TimerFires n) = Some r_n /\
                         pending r_n = seq 0 (S n)).
Proof.
  eexists. split; [reflexivity|].
  apply (C6_fixed_rate_timer [TimerFires; Settles 1 btc_null; TimerFires]).
  reflexivity.
Defined.

(** C7. Stop cancels the timer.  Once the cleanup of the effect has run
    there is no timer: its callback cannot run, and whatever happens next
    starts no invocation of [fetchData].  An invocation that was pending
    can still settle: its continuation runs, writes the history refs and
    calls the setters. *)
Theorem C7_unmount_cancels_timer (r : Runtime) (es : list event) (r' : Runtime)
    (Hrun : run r (Unmount :: es) = Some r') :
  interval r' = None /\
  step r' TimerFires = None /\
  started r' = started r /\
  Forall (fun e => e <> TimerFires) es /\
  (forall id c, id ∈ pending r' ->
     exists r'', step r' (Settles id c) = Some r'' /\
                 ethHistory (app r'') = ethHistory (cycle (app r') c) /\
                 btcHistory (app r'') = btcHistory (cycle (app r') c) /\
                 trace (app r'') = trace (cycle (app r') c) /\
                 started r'' = started r).
Proof.
  cbn in Hrun.
  destruct (run_unmounted es (unmount r) r' eq_refl eq_refl Hrun)
    as (Hi & Hm & Hs & Hes).
  split; [done|]. split; [by cbn; rewrite Hi|]. split; [done|]. split; [done|].
  intros id c Hid. cbn. rewrite bool_decide_eq_true_2 by done.
  eexists. split; [reflexivity|]. unfold settle. rewrite Hm. done.
Qed.

Lemma C7_unmount_cancels_timer_witness :
  exists r', run mount [Unmount; Settles 0 btc_null] = Some r' /\
  interval r' = None /\
  step r' TimerFires = None /\
  started r' = started mount /\
  Forall (fun e => e <> TimerFires) [Settles 0 btc_null] /\
  (forall id c, id ∈ pending r' ->
     exists r'', step r' (Settles id c) = Some r'' /\
                 ethHistory (app r'') = ethHistory (cycle (app r') c) /\
                 btcHistory (app r'') = btcHistory (cycle (app r') c) /\
                 trace (app r'') = trace (cycle (app r') c) /\
                 started r'' = started mount).
Proof.
  eexists. split; [reflexivity|].
  apply (C7_unmount_cancels_timer mount [Settles 0 btc_null]). reflexivity.
Defined.

(** C10. Immediate first cycle.  Mounting invokes [fetchData] once at
    time 0 and only then arms the timer, whose first firing is at 3000 ms;
    the firings that follow start invocations 1, 2, ... at 3000, 6000, ...
    ms. *)
Theorem C10_first_cycle_at_mount :
  clock mount = 0 /\
  started mount = [0] /\
  pending mount = [0%nat] /\
  interval mount = Some (mkTimer 3000 3000) /\
  (forall n, exists r, run mount (repeat TimerFires n) = Some r /\
                       started r = 0 :: map (fun k => 3000 * Z.of_nat k) (seq 1 n)).
Proof.
  repeat split. intros n.
  destruct (run_timer_only n) as (r & H1 & H2 & _). exists r. split; [done|].
  rewrite H2. reflexivity.
Qed.

(** * Further properties of [fetchData] *)

(** ** Histories along arbitrary runs *)

Lemma successful_eth_appends (c : Cycle) :
  successful c = true -> eth_appends c = true.
Proof.
  intros Hc. destruct (successful_delivered c Hc) as (ed & ev & bd & bv & De & Db).
  unfold eth_appends. rewrite De.
  unfold delivered, fetch_fails in *. by destruct (body (btcRes c)).
Qed.

Lemma failed_cycle_appends_nothing (c : Cycle) :
  fetch_fails (ethRes c) = true \/ fetch_fails (btcRes c) = true ->
  successful c = false /\ eth_appends c = false.
Proof.
  unfold successful, eth_appends, delivered, fetch_fails.
  intros [H|H].
  - by destruct (body (ethRes c)).
  - destruct (body (btcRes c)); [discriminate|].
    destruct (body (ethRes c)) as [j|]; [|done].
    destruct (prop_of j "data") as [d|]; [|done].
    by destruct (prop_of d "totalNetInflow").
Qed.

(** What one cycle does to the two histories, whatever its outcome. *)
Lemma cycle_with_histories keep s c :
  wf s ->
  let s' := cycle_with keep s c in
  ethHistory s' = match appended_eth c with
                  | Some p => slice (- keep) (ethHistory s) ++ [p]
                  | None => ethHistory s
                  end /\
  btcHistory s' = match appended_btc c with
                  | Some p => slice (- keep) (btcHistory s) ++ [p]
                  | None => btcHistory s
                  end.
Proof.
  intros Hs. cbn zeta. unfold appended_eth, appended_btc, point.
  destruct (cycle_cases c) as [H|[(Fe & Fb & De)|[(ed & ev & De & Fb & Db)|
                                 (ed & ev & bd & bv & De & Db)]]].
  - destruct (failed_cycle_appends_nothing c H) as [Hu1 Hu2]. rewrite Hu1, Hu2.
    unfold cycle_with, ethHistory, btcHistory.
    by destruct (cycle_rejected keep c s H) as [e ->].
  - destruct (cycle_eth_undelivered keep s c Hs De) as (_ & _ & He & Hb).
    unfold successful, eth_appends. rewrite De. done.
  - destruct (cycle_btc_undelivered keep s c Hs Db) as (_ & _ & Hb).
    unfold successful, eth_appends. rewrite De, Db, Fb. cbn [negb].
    split; [|done].
    destruct Hs as [He _]. unfold cycle_with, ethHistory.
    destruct (cycle_btc_nullish keep c s ed ev De Fb Db) as [k ->]. cbn.
    rewrite <- !app_assoc. cbn [app].
    by rewrite (contents_app_r _ _ _ 1) by lia.
  - destruct (cycle_success_histories keep c s ed ev bd bv Hs De Db)
      as (_ & _ & He & Hb).
    assert (Hc : successful c = true) by (unfold successful; by rewrite De, Db).
    rewrite (successful_eth_appends c Hc), Hc, De, Db. done.
Qed.

Lemma omap_cons_eq {A B} (f : A -> option B) (x : A) (xs : list A) :
  omap f (x :: xs) = match f x with
                     | Some y => y :: omap f xs
                     | None => omap f xs
                     end.
Proof. reflexivity. Qed.

(** The window invariant along any run: each history is the most recent
    [n + 1] of the points appended so far. *)
Lemma window_invariant_any (n : nat) (cs : list Cycle) :
  (0 < n)%nat ->
  forall (s : AppState) (pe pb : list HistoryItem),
    wf s ->
    ethHistory s = most_recent (S n) pe ->
    btcHistory s = most_recent (S n) pb ->
    let s' := cycles_with (Z.of_nat n) s cs in
    ethHistory s' = most_recent (S n) (pe ++ omap appended_eth cs) /\
    btcHistory s' = most_recent (S n) (pb ++ omap appended_btc cs).
Proof.
  intros Hn. induction cs as [|c cs IH]; intros s pe pb Hs He Hb.
  - cbn. by rewrite !app_nil_r.
  - destruct (cycle_with_histories (Z.of_nat n) s c Hs) as [He' Hb'].
    rewrite !omap_cons_eq.
    assert (He'' : ethHistory (cycle_with (Z.of_nat n) s c) =
                   most_recent (S n)
                     (pe ++ match appended_eth c with Some p => [p] | None => [] end)).
    { rewrite He'. destruct (appended_eth c).
      - by rewrite He, window_step.
      - by rewrite app_nil_r. }
    assert (Hb'' : btcHistory (cycle_with (Z.of_nat n) s c) =
                   most_recent (S n)
                     (pb ++ match appended_btc c with Some p => [p] | None => [] end)).
    { rewrite Hb'. destruct (appended_btc c).
      - by rewrite Hb, window_step.
      - by rewrite app_nil_r. }
    specialize (IH _ _ _ (cycle_with_wf _ s c Hs) He'' Hb'').
    rewrite <- !app_assoc in IH.
    destruct (appended_eth c), (appended_btc c); exact IH.
Qed.

Lemma appended_btc_eth (c : Cycle) :
  is_Some (appended_btc c) -> is_Some (appended_eth c).
Proof.
  unfold appended_btc, appended_eth.
  destruct (successful c) eqn:Hc; [|by intros [? ?]].
  intros _. rewrite (successful_eth_appends c Hc).
  destruct (successful_delivered c Hc) as (ed & ev & bd & bv & De & Db).
  unfold point. rewrite De. eauto.
Qed.

Lemma appended_btc_fewer (cs : list Cycle) :
  (length (omap appended_btc cs) <= length (omap appended_eth cs))%nat.
Proof.
  induction cs as [|c cs IH]; [done|].
  rewrite !omap_cons_eq.
  destruct (appended_btc c) as [p|] eqn:Hb.
  - destruct (appended_btc_eth c) as [q ->]; [by rewrite Hb|]. cbn. lia.
  - destruct (appended_eth c); cbn; lia.
Qed.

(** X1. Along any run from mount, failed cycles included, the BTCUSDT
    history is the most recent 20 of the points of the successful cycles,
    and the ETHUSDT history the most recent 20 of the points of the cycles
    that reached the assignment of line 152, each in arrival order: a
    failed cycle leaves neither a gap nor a duplicate. *)
Theorem X1_histories_along_any_run (cs : list Cycle) :
  ethHistory (cycles initial cs) = most_recent 20 (omap appended_eth cs) /\
  btcHistory (cycles initial cs) = most_recent 20 (omap appended_btc cs).
Proof.
  assert (H19 : (0 < 19)%nat) by lia.
  apply (window_invariant_any 19 cs H19 initial [] [] initial_wf); reflexivity.
Qed.

(** X2. In every state reached from mount, each history holds at most 20
    points, and the BTCUSDT history is never longer than the ETHUSDT
    history. *)
Theorem X2_history_lengths (cs : list Cycle) :
  let s := cycles initial cs in
  (length (ethHistory s) <= 20)%nat /\
  (length (btcHistory s) <= 20)%nat /\
  (length (btcHistory s) <= length (ethHistory s))%nat.
Proof.
  assert (H19 : (0 < 19)%nat) by lia.
  destruct (window_invariant_any 19 cs H19 initial [] [] initial_wf)
    as [He Hb]; [reflexivity..|].
  cbn zeta. unfold cycles. change (Z.of_nat 19) with 19 in He, Hb.
  rewrite He, Hb, !most_recent_length, !app_nil_l.
  pose proof (appended_btc_fewer cs). lia.
Qed.

(** ** Latest samples and the log along arbitrary runs *)

(** What one cycle does to the two cells and to the trace. *)
Lemma cycle_with_effects keep s c :
  let s' := cycle_with keep s c in
  match delivered (ethRes c), delivered (btcRes c) with
  | Some (ed, _), Some (bd, _) =>
      ethData s' = ed /\ btcData s' = bd /\
      trace s' = trace s ++ [SetEthData ed; SetBtcData bd]
  | _, _ =>
      ethData s' = ethData s /\ btcData s' = btcData s /\
      exists e, trace s' = trace s ++ [ConsoleError e]
  end.
Proof.
  unfold cycle_with. cbn zeta.
  destruct (cycle_cases c) as [H|[(Fe & Fb & De)|[(ed & ev & De & Fb & Db)|
                                 (ed & ev & bd & bv & De & Db)]]].
  - destruct (cycle_rejected keep c s H) as [e ->]. cbn.
    assert (Hn : delivered (ethRes c) = None \/ delivered (btcRes c) = None).
    { unfold delivered, fetch_fails in *.
      destruct H as [H|H]; [left|right]; by destruct (body _). }
    destruct Hn as [-> | Hn].
    + eauto.
    + rewrite Hn. destruct (delivered (ethRes c)) as [[? ?]|]; eauto.
  - destruct (cycle_eth_nullish keep c s Fe Fb De) as [k ->]. rewrite De. cbn. eauto.
  - destruct (cycle_btc_nullish keep c s ed ev De Fb Db) as [k ->].
    rewrite De, Db. cbn. eauto.
  - rewrite (cycle_success keep c s ed ev bd bv De Db), De, Db. cbn. eauto.
Qed.

Lemma cycle_with_unsuccessful keep s c :
  successful c = false ->
  let s' := cycle_with keep s c in
  ethData s' = ethData s /\ btcData s' = btcData s /\
  exists e, trace s' = trace s ++ [ConsoleError e].
Proof.
  intros Hc. pose proof (cycle_with_effects keep s c) as H. cbn zeta in H.
  unfold successful in Hc.
  destruct (delivered (ethRes c)) as [[ed ev]|]; [|exact H].
  destruct (delivered (btcRes c)) as [[bd bv]|]; [discriminate|exact H].
Qed.

Lemma cycle_with_successful keep s c :
  successful c = true ->
  let s' := cycle_with keep s c in
  exists ed ev bd bv,
    delivered (ethRes c) = Some (ed, ev) /\ delivered (btcRes c) = Some (bd, bv) /\
    ethData s' = ed /\ btcData s' = bd /\
    trace s' = trace s ++ [SetEthData ed; SetBtcData bd].
Proof.
  intros Hc. pose proof (cycle_with_effects keep s c) as H. cbn zeta in H.
  destruct (successful_delivered c Hc) as (ed & ev & bd & bv & De & Db).
  rewrite De, Db in H. exists ed, ev, bd, bv. tauto.
Qed.

Lemma filter_snoc {A} (f : A -> bool) (xs : list A) (x : A) :
  List.filter f (xs ++ [x]) = List.filter f xs ++ (if f x then [x] else []).
Proof. rewrite List.filter_app. cbn. by destruct (f x). Qed.

Lemma samples_along_run (cs : list Cycle) :
  ethData (cycles initial cs) = latest ethRes cs /\
  btcData (cycles initial cs) = latest btcRes cs.
Proof.
  induction cs as [|c cs [IHe IHb]] using rev_ind; [done|].
  unfold cycles in *. rewrite cycles_with_snoc. unfold latest in *.
  rewrite filter_snoc. destruct (successful c) eqn:Hc.
  - rewrite last_snoc.
    destruct (cycle_with_successful 19 (cycles_with 19 initial cs) c Hc)
      as (ed & ev & bd & bv & De & Db & He & Hb & _).
    by rewrite De, Db.
  - rewrite app_nil_r.
    destruct (cycle_with_unsuccessful 19 (cycles_with 19 initial cs) c Hc)
      as (He & Hb & _).
    by rewrite He, Hb.
Qed.

(** X3. In every state reached from mount, the two latest samples are
    the [data] values of the last successful cycle of the run, and both
    are still [null] if no cycle succeeded: a failed cycle never clears or
    replaces a sample. *)
Theorem X3_latest_samples_of_last_success (cs : list Cycle) :
  ethData (cycles initial cs) = latest ethRes cs /\
  btcData (cycles initial cs) = latest btcRes cs.
Proof. exact (samples_along_run cs). Qed.

(** X4. Along any run from mount, every unsuccessful cycle logs exactly
    one [console.error] and calls no setter, and every successful cycle
    calls each setter exactly once and logs nothing: the numbers of log
    entries and of setter calls are the numbers of unsuccessful and of
    successful cycles. *)
Theorem X4_one_log_entry_per_failed_cycle (cs : list Cycle) :
  let t := trace (cycles initial cs) in
  length (List.filter is_ConsoleError t) =
    length (List.filter (fun c => negb (successful c)) cs) /\
  length (List.filter is_SetEthData t) = length (List.filter successful cs) /\
  length (List.filter is_SetBtcData t) = length (List.filter successful cs) /\
  length t = (length cs + length (List.filter successful cs))%nat.
Proof.
  cbn zeta. induction cs as [|c cs (IH1 & IH2 & IH3 & IH4)] using rev_ind; [done|].
  unfold cycles in *. rewrite cycles_with_snoc, !filter_snoc.
  destruct (successful c) eqn:Hc; cbn [negb].
  - destruct (cycle_with_successful 19 (cycles_with 19 initial cs) c Hc)
      as (ed & ev & bd & bv & _ & _ & _ & _ & ->).
    rewrite !List.filter_app, !length_app. cbn. lia.
  - destruct (cycle_with_unsuccessful 19 (cycles_with 19 initial cs) c Hc)
      as (_ & _ & e & ->).
    rewrite !List.filter_app, !length_app. cbn. lia.
Qed.

(** ** The two history arrays *)

Lemma cycle_with_separate keep s c :
  wf s -> ethHistoryRef s <> btcHistoryRef s ->
  ethHistoryRef (cycle_with keep s c) <> btcHistoryRef (cycle_with keep s c).
Proof.
  intros [He Hb] Hne. unfold cycle_with.
  destruct (cycle_cases c) as [H|[(Fe & Fb & De)|[(ed & ev & De & Fb & Db)|
                                 (ed & ev & bd & bv & De & Db)]]].
  - by destruct (cycle_rejected keep c s H) as [e ->].
  - by destruct (cycle_eth_nullish keep c s Fe Fb De) as [k ->].
  - destruct (cycle_btc_nullish keep c s ed ev De Fb Db) as [k ->]. cbn. lia.
  - rewrite (cycle_success keep c s ed ev bd bv De Db). cbn. lia.
Qed.

Lemma cycles_with_separate keep cs :
  forall s, wf s -> ethHistoryRef s <> btcHistoryRef s ->
            ethHistoryRef (cycles_with keep s cs) <> btcHistoryRef (cycles_with keep s cs).
Proof.
  induction cs as [|c cs IH]; intros s Hs Hne; [done|].
  apply IH; [by apply cycle_with_wf | by apply cycle_with_separate].
Qed.

Lemma contents_insert_ne (h : store) (l l' : loc) (xs : list HistoryItem) :
  l <> l' -> contents (<[l := xs]> h) l' = contents h l'.
Proof. intros H. unfold contents. by rewrite list_lookup_insert_ne. Qed.

Lemma contents_insert_eq (h : store) (l : loc) (xs : list HistoryItem) :
  (l < length h)%nat -> contents (<[l := xs]> h) l = xs.
Proof. intros H. unfold contents. by rewrite list_lookup_insert_eq. Qed.

(** X5. In every state reached from mount the two refs hold two distinct
    arrays: a [push] on the array one ref holds changes that instrument's
    history and leaves the other instrument's history as it was. *)
Theorem X5_histories_never_share_an_array (cs : list Cycle) (x : HistoryItem) :
  let s := cycles initial cs in
  let s_eth := snd (array_push (ethHistoryRef s) x s) in
  let s_btc := snd (array_push (btcHistoryRef s) x s) in
  ethHistoryRef s <> btcHistoryRef s /\
  ethHistory s_eth = ethHistory s ++ [x] /\ btcHistory s_eth = btcHistory s /\
  btcHistory s_btc = btcHistory s ++ [x] /\ ethHistory s_btc = ethHistory s.
Proof.
  cbn zeta.
  pose proof (cycles_with_wf 19 cs initial initial_wf) as [He Hb].
  assert (Hne : ethHistoryRef (cycles initial cs) <> btcHistoryRef (cycles initial cs)).
  { apply cycles_with_separate; [exact initial_wf | cbn; lia]. }
  fold (cycles initial cs) in He, Hb.
  unfold ethHistory, btcHistory. cbn.
  split; [exact Hne|].
  by rewrite !contents_insert_eq, !contents_insert_ne.
Qed.

(** X6. After every successful cycle, the last point of each history is
    the point of that cycle: its time is the cycle's time string for both
    instruments, and its value is the [totalNetInflow] of the instrument's
    new latest sample. *)
Theorem X6_last_point_matches_latest_sample (s : AppState) (c : Cycle)
    (Hwf : wf s) (Hc : successful c = true) :
  let s' := cycle s c in
  exists v w,
    last (ethHistory s') = Some (mkHistoryItem (now c) v) /\
    prop_of (ethData s') "totalNetInflow" = Some v /\
    last (btcHistory s') = Some (mkHistoryItem (now c) w) /\
    prop_of (btcData s') "totalNetInflow" = Some w.
Proof.
  destruct (successful_delivered c Hc) as (ed & ev & bd & bv & De & Db).
  destruct (cycle_success_histories 19 c s ed ev bd bv Hwf De Db)
    as (Hed & Hbd & He & Hb).
  cbn zeta. unfold cycle. exists ev, bv.
  rewrite Hed, Hbd, He, Hb, !last_snoc.
  repeat split; by eapply delivered_total.
Qed.

Lemma X6_last_point_matches_latest_sample_witness :
  wf initial /\ successful (ok_cycle "12:00:00" (sample 10 1) (sample 7 1)) = true /\
  let c := ok_cycle "12:00:00" (sample 10 1) (sample 7 1) in
  let s' := cycle initial c in
  exists v w,
    last (ethHistory s') = Some (mkHistoryItem (now c) v) /\
    prop_of (ethData s') "totalNetInflow" = Some v /\
    last (btcHistory s') = Some (mkHistoryItem (now c) w) /\
    prop_of (btcData s') "totalNetInflow" = Some w.
Proof.
  split; [exact initial_wf|]. split; [reflexivity|].
  exact (X6_last_point_matches_latest_sample initial
           (ok_cycle "12:00:00" (sample 10 1) (sample 7 1)) initial_wf eq_refl).
Defined.

(** * Properties of the presentational components *)

Section PresentationFacts.

Variable toLocaleString : jsval -> string.
Variable toLocaleTimeString : jsval -> string.
Variable string_positive : string -> bool.
Variable Array_toPrimitive : list jsval -> outcome jsval.

Lemma truthy_read (v : jsval) (k : string) :
  truthy v = true -> read_prop v k = Normal (default VUndefined (prop_of v k)).
Proof. unfold read_prop. by destruct v. Qed.

Lemma primitive_ToPrimitive (v : jsval) :
  primitive v = true -> ToPrimitive Array_toPrimitive v = Normal v.
Proof. by destruct v. Qed.

Lemma primitive_greater_than_0 (v : jsval) :
  primitive v = true ->
  exists b, greater_than_0 string_positive Array_toPrimitive v = Normal b.
Proof.
  intros H. unfold greater_than_0. rewrite primitive_ToPrimitive by done.
  cbn. eauto.
Qed.

Lemma primitive_formatNumber (v : jsval) :
  primitive v = true ->
  formatNumber toLocaleString Array_toPrimitive v = Normal (toLocaleString v).
Proof.
  intros H. unfold formatNumber. by rewrite primitive_ToPrimitive.
Qed.

Lemma primitive_TotalInflow (v : jsval) :
  primitive v = true ->
  exists e, TotalInflow toLocaleString string_positive Array_toPrimitive v = Normal e.
Proof.
  intros H. unfold TotalInflow.
  destruct (primitive_greater_than_0 v H) as [b ->].
  rewrite primitive_formatNumber by done. cbn. eauto.
Qed.

Lemma primitive_FlowValue (label : string) (v : jsval) (tooltip : string) :
  primitive v = true ->
  exists e, FlowValue toLocaleString string_positive Array_toPrimitive
              label v tooltip = Normal e.
Proof.
  intros H. unfold FlowValue.
  destruct (primitive_greater_than_0 v H) as [b ->].
  rewrite primitive_formatNumber by done. cbn. eauto.
Qed.

(** X7. Rendering does not throw when the sample is complete or merely
    incomplete: [AssetCard] returns an element whenever [data] is falsy
    (the placeholder) or none of the seven fields it reads is an array or
    an object; numbers, strings, booleans, [null] and missing fields all
    render. *)
Theorem X7_rendering_never_throws (props : AssetCardProps)
    (Hfields : truthy (data props) = true -> fields_primitive (data props) = true) :
  exists e,
    AssetCard toLocaleString toLocaleTimeString string_positive Array_toPrimitive
              props = Normal e.
Proof.
  unfold AssetCard. destruct (truthy (data props)) eqn:Ht; cbn [negb]; [|eauto].
  specialize (Hfields eq_refl). unfold fields_primitive, AssetData_fields in Hfields.
  cbn [forallb] in Hfields.
  repeat (apply andb_prop in Hfields as [?H Hfields]).
  rewrite !truthy_read by done. cbn [and_then].
  destruct (primitive_greater_than_0 _ H) as [b ->]. cbn [and_then].
  unfold Date_toLocaleTimeString. rewrite primitive_ToPrimitive by done.
  cbn [and_then].
  destruct (primitive_TotalInflow _ H) as [e0 ->]. cbn [and_then].
  destruct (primitive_FlowValue "Big Volume Net Inflow" _
              "Flujo neto de grandes órdenes" H0) as [e1 ->]. cbn [and_then].
  destruct (primitive_FlowValue "Buy Maker Big Volume" _
              "Grandes órdenes de compra (limit orders)" H1) as [e2 ->].
  cbn [and_then].
  destruct (primitive_FlowValue "Buy Taker Big Volume" _
              "Grandes órdenes de compra (market orders)" H2) as [e3 ->].
  cbn [and_then].
  destruct (primitive_FlowValue "Medium Volume Net Inflow" _
              "Flujo neto de órdenes medianas" H3) as [e4 ->]. cbn [and_then].
  destruct (primitive_FlowValue "Small Volume Net Inflow" _
              "Flujo neto de órdenes pequeñas" H4) as [e5 ->]. cbn [and_then].
  eauto.
Qed.

Lemma no_success_no_sample (cs : list Cycle) :
  forallb (fun c => negb (successful c)) cs = true ->
  ethData (cycles initial cs) = VNull /\ btcData (cycles initial cs) = VNull.
Proof.
  intros H. destruct (samples_along_run cs) as [-> ->]. unfold latest.
  assert (Hf : List.filter successful cs = []).
  { induction cs as [|c cs IH]; [done|]. cbn in *.
    apply andb_prop in H as [Hc H]. destruct (successful c); [discriminate|auto]. }
  by rewrite Hf.
Qed.

(** X8. Until a cycle succeeds, whatever failed before, [App] shows the
    two placeholders, "Cargando Ethereum (ETHUSDT)..." and "Cargando
    Bitcoin (BTCUSDT)...". *)
Theorem X8_placeholders_until_first_success (cs : list Cycle)
    (Hcs : forallb (fun c => negb (successful c)) cs = true) :
  let s := cycles initial cs in
  AssetCard toLocaleString toLocaleTimeString string_positive Array_toPrimitive
            (fst (App s)) = Normal (placeholder "Ethereum (ETHUSDT)") /\
  AssetCard toLocaleString toLocaleTimeString string_positive Array_toPrimitive
            (snd (App s)) = Normal (placeholder "Bitcoin (BTCUSDT)").
Proof.
  destruct (no_success_no_sample cs Hcs) as [He Hb].
  cbn zeta. unfold AssetCard, App. cbn. by rewrite He, Hb.
Qed.

(** X9. A cycle in which a fetch fails (a request rejects or a body is
    not JSON) changes nothing of what [App] renders. *)
Theorem X9_failed_fetch_keeps_the_view (s : AppState) (c : Cycle)
    (Hfail : fetch_fails (ethRes c) = true \/ fetch_fails (btcRes c) = true) :
  App_view toLocaleString toLocaleTimeString string_positive Array_toPrimitive
           (cycle s c) =
  App_view toLocaleString toLocaleTimeString string_positive Array_toPrimitive s.
Proof.
  unfold cycle, cycle_with.
  by destruct (cycle_rejected 19 c s Hfail) as [e ->].
Qed.

Ltac step_render H :=
  match type of H with
  | and_then ?m _ = Normal _ =>
      let E := fresh "E" in
      destruct m eqn:E; cbn [and_then] in H; [|discriminate]
  end.

(** X10. Whenever a card that has a sample renders, the colour of the
    headline box and the colour of the chart line agree: both are green
    when the sample's [totalNetInflow] is greater than 0 and both are red
    otherwise (zero, negative, [null] or missing). *)
Theorem X10_headline_and_line_colours_agree (props : AssetCardProps) (e : element)
    (Hdata : truthy (data props) = true)
    (Hrender : AssetCard toLocaleString toLocaleTimeString string_positive
                 Array_toPrimitive props = Normal e) :
  exists positive,
    greater_than_0 string_positive Array_toPrimitive
      (default VUndefined (prop_of (data props) "totalNetInflow")) = Normal positive /\
    (descend [1%nat] e ≫= attr_of "className") =
      Some (AString
              (String.append "p-4 rounded-xl text-center font-bold text-2xl shadow-inner "
                 (if positive then "bg-green-100 text-green-700"
                  else "bg-red-100 text-red-700"))) /\
    (descend [2%nat; 0%nat; 0%nat; 4%nat] e ≫= attr_of "stroke") =
      Some (AString (if positive then "#16a34a" else "#dc2626")).
Proof.
  unfold AssetCard in Hrender. rewrite Hdata in Hrender. cbn [negb] in Hrender.
  rewrite !truthy_read in Hrender by done. cbn [and_then] in Hrender.
  unfold TotalInflow in Hrender.
  step_render Hrender. step_render Hrender.
  destruct (formatNumber toLocaleString Array_toPrimitive _) as [formatted|] eqn:F;
    cbn [and_then] in Hrender; [|discriminate].
  do 5 step_render Hrender.
  injection Hrender as <-. exists a. split; [done|]. split; reflexivity.
Qed.

(** X13. A sample whose [totalNetInflow] is an object with an own
    [toString] property breaks the render: the comparison of line 91
    throws a [TypeError], so the ETHUSDT card, and with it [App], returns
    no element. *)
Theorem X13_unconvertible_inflow_breaks_the_render (s : AppState)
    (fields : list (string * jsval)) (x : jsval)
    (Hdata : truthy (ethData s) = true)
    (Hinflow : prop_of (ethData s) "totalNetInflow" = Some (VObject fields))
    (HtoString : own_property "toString" fields = Some x) :
  AssetCard toLocaleString toLocaleTimeString string_positive Array_toPrimitive
            (fst (App s)) = Throw (TypeError "toString") /\
  App_view toLocaleString toLocaleTimeString string_positive Array_toPrimitive s =
    Throw (TypeError "toString").
Proof.
  assert (H : AssetCard toLocaleString toLocaleTimeString string_positive
                Array_toPrimitive (fst (App s)) = Throw (TypeError "toString")).
  { unfold AssetCard, App. cbn [fst data title history]. rewrite Hdata. cbn [negb].
    rewrite !truthy_read by done. rewrite Hinflow.
    unfold greater_than_0, ToPrimitive. cbn. rewrite HtoString. reflexivity. }
  split; [exact H|]. unfold App_view. by rewrite H.
Qed.

End PresentationFacts.

Lemma X7_rendering_never_throws_witness :
  (truthy (sample 10 1) = true -> fields_primitive (sample 10 1) = true) /\
  exists e,
    AssetCard demo_toLocaleString demo_toLocaleTimeString demo_string_positive
              demo_Array_toPrimitive
              (mkAssetCardProps "Ethereum (ETHUSDT)" (sample 10 1) 0%nat) = Normal e.
Proof.
  split; [intros _; reflexivity|].
  apply (X7_rendering_never_throws demo_toLocaleString demo_toLocaleTimeString
           demo_string_positive demo_Array_toPrimitive
           (mkAssetCardProps "Ethereum (ETHUSDT)" (sample 10 1) 0%nat)).
  intros _; reflexivity.
Defined.

Lemma X8_placeholders_until_first_success_witness :
  forallb (fun c => negb (successful c)) [eth_down; btc_null] = true /\
  let s := cycles initial [eth_down; btc_null] in
  AssetCard demo_toLocaleString demo_toLocaleTimeString demo_string_positive
            demo_Array_toPrimitive (fst (App s)) =
    Normal (placeholder "Ethereum (ETHUSDT)") /\
  AssetCard demo_toLocaleString demo_toLocaleTimeString demo_string_positive
            demo_Array_toPrimitive (snd (App s)) =
    Normal (placeholder "Bitcoin (BTCUSDT)").
Proof.
  split; [reflexivity|].
  exact (X8_placeholders_until_first_success demo_toLocaleString
           demo_toLocaleTimeString demo_string_positive demo_Array_toPrimitive
           [eth_down; btc_null] eq_refl).
Defined.

Lemma X9_failed_fetch_keeps_the_view_witness :
  (fetch_fails (ethRes eth_down) = true \/ fetch_fails (btcRes eth_down) = true) /\
  App_view demo_toLocaleString demo_toLocaleTimeString demo_string_positive
           demo_Array_toPrimitive (cycle (cycles initial scenario) eth_down) =
  App_view demo_toLocaleString demo_toLocaleTimeString demo_string_positive
           demo_Array_toPrimitive (cycles initial scenario).
Proof.
  split; [left; reflexivity|].
  apply (X9_failed_fetch_keeps_the_view demo_toLocaleString
           demo_toLocaleTimeString demo_string_positive demo_Array_toPrimitive).
  left; reflexivity.
Defined.

Lemma X10_headline_and_line_colours_agree_witness :
  truthy (sample 10 1) = true /\
  exists e,
    AssetCard demo_toLocaleString demo_toLocaleTimeString demo_string_positive
              demo_Array_toPrimitive
              (mkAssetCardProps "Ethereum (ETHUSDT)" (sample 10 1) 0%nat) = Normal e /\
    exists positive,
      greater_than_0 demo_string_positive demo_Array_toPrimitive
        (default VUndefined (prop_of (sample 10 1) "totalNetInflow")) =
        Normal positive /\
      (descend [1%nat] e ≫= attr_of "className") =
        Some (AString
                (String.append
                   "p-4 rounded-xl text-center font-bold text-2xl shadow-inner "
                   (if positive then "bg-green-100 text-green-700"
                    else "bg-red-100 text-red-700"))) /\
      (descend [2%nat; 0%nat; 0%nat; 4%nat] e ≫= attr_of "stroke") =
        Some (AString (if positive then "#16a34a" else "#dc2626")).
Proof.
  split; [reflexivity|]. eexists. split; [reflexivity|].
  apply (X10_headline_and_line_colours_agree demo_toLocaleString
           demo_toLocaleTimeString demo_string_positive demo_Array_toPrimitive
           (mkAssetCardProps "Ethereum (ETHUSDT)" (sample 10 1) 0%nat));
    reflexivity.
Defined.

Lemma X13_unconvertible_inflow_breaks_the_render_witness :
  let s := cycle initial (ok_cycle "12:00:00" odd_sample (sample 7 1)) in
  truthy (ethData s) = true /\
  prop_of (ethData s) "totalNetInflow" = Some (VObject [("toString", VNumber 0)]) /\
  own_property "toString" [("toString", VNumber 0)] = Some (VNumber 0) /\
  AssetCard demo_toLocaleString demo_toLocaleTimeString demo_string_positive
            demo_Array_toPrimitive (fst (App s)) = Throw (TypeError "toString") /\
  App_view demo_toLocaleString demo_toLocaleTimeString demo_string_positive
           demo_Array_toPrimitive s = Throw (TypeError "toString").
Proof.
  cbn zeta. split; [reflexivity|]. split; [reflexivity|]. split; [reflexivity|].
  apply (X13_unconvertible_inflow_breaks_the_render demo_toLocaleString
           demo_toLocaleTimeString demo_string_positive demo_Array_toPrimitive
           (cycle initial (ok_cycle "12:00:00" odd_sample (sample 7 1)))
           [("toString", VNumber 0)] (VNumber 0)); reflexivity.
Defined.

(** * Further properties of the event loop *)

Lemma step_accounted (r r' : Runtime) (e : event) (ids : list nat) :
  accounted r ids -> step r e = Some r' ->
  accounted r' (ids ++ settled_ids [e]) /\
  length (started r') =
    (length (started r) + length (List.filter is_TimerFires [e]))%nat.
Proof.
  intros (Hids & Hnd & Hiff & Hlt) Hstep. destruct e as [|id c|]; cbn in Hstep.
  - destruct (interval r) as [t|]; [|discriminate]. injection Hstep as <-.
    unfold accounted. cbn. rewrite app_nil_r, !length_app. cbn [length].
    split; [|lia]. split; [done|]. split.
    { apply NoDup_app. split; [done|]. split; [|apply NoDup_singleton].
      intros i Hi ->%list_elem_of_singleton. apply Hiff in Hi. lia. }
    split.
    + intros i. rewrite elem_of_app, list_elem_of_singleton, Hiff. split.
      * intros [[? ?]| ->]; [split; [lia|done]|].
        split; [lia|]. intros H%Hlt. lia.
      * intros [Hi Hn]. destruct (decide (i = length (started r))); [by right|].
        left. split; [lia|done].
    + intros i Hi%Hlt. lia.
  - destruct (bool_decide (id ∈ pending r)) eqn:Hid; [|discriminate].
    apply bool_decide_eq_true_1 in Hid. injection Hstep as <-.
    destruct (proj1 (Hiff id) Hid) as [Hid_lt Hid_new].
    unfold accounted. cbn. split; [|lia]. split.
    { apply NoDup_app. split; [done|]. split; [|apply NoDup_singleton].
      intros i Hi ->%list_elem_of_singleton. done. }
    split; [by apply NoDup_filter|]. split.
    + intros i. rewrite list_elem_of_filter, Hiff, not_elem_of_app,
        list_elem_of_singleton. tauto.
    + intros i [Hi| ->%list_elem_of_singleton]%elem_of_app; [by apply Hlt|done].
  - injection Hstep as <-. unfold accounted. cbn. rewrite app_nil_r.
    split; [|lia]. done.
Qed.

Lemma settled_ids_cons (e : event) (es : list event) :
  settled_ids (e :: es) = settled_ids [e] ++ settled_ids es.
Proof. by destruct e. Qed.

Lemma run_accounted (es : list event) :
  forall r r' ids, accounted r ids -> run r es = Some r' ->
    accounted r' (ids ++ settled_ids es) /\
    length (started r') =
      (length (started r) + length (List.filter is_TimerFires es))%nat.
Proof.
  induction es as [|e es IH]; intros r r' ids Hr Hrun; cbn in Hrun.
  - injection Hrun as <-. cbn. rewrite app_nil_r. split; [done|lia].
  - destruct (step r e) as [r1|] eqn:Hstep; [|discriminate].
    destruct (step_accounted r r1 e ids Hr Hstep) as (Hr1 & Hs1).
    destruct (IH r1 r' _ Hr1 Hrun) as (Hr' & Hs').
    rewrite settled_ids_cons, app_assoc. split; [done|].
    rewrite Hs', Hs1. destruct e; cbn; lia.
Qed.

(** X11. In every run of the event loop from mount, the number of
    [fetchData] invocations started is one (the call at mount) plus the
    number of timer firings; no invocation settles twice; only started
    invocations settle; and the pending invocations are exactly the
    started ones that have not settled. *)
Theorem X11_invocations_accounted_for (es : list event) (r : Runtime)
    (Hrun : run mount es = Some r) :
  length (started r) = S (length (List.filter is_TimerFires es)) /\
  NoDup (settled_ids es) /\
  (forall i, i ∈ settled_ids es -> (i < length (started r))%nat) /\
  NoDup (pending r) /\
  (forall i, i ∈ pending r <->
             (i < length (started r))%nat /\ i ∉ settled_ids es).
Proof.
  assert (Hm : accounted mount []).
  { split; [constructor|]. split; [apply NoDup_singleton|]. split.
    - intros i. cbn. rewrite list_elem_of_singleton. split.
      + intros ->. split; [lia|apply not_elem_of_nil].
      + intros [Hi _]. lia.
    - intros i Hi. by apply elem_of_nil in Hi. }
  destruct (run_accounted es mount r [] Hm Hrun) as ((H1 & H2 & H3 & H4) & Hs).
  rewrite app_nil_l in *. cbn in Hs. tauto.
Qed.

Lemma X11_invocations_accounted_for_witness :
  exists r, run mount [TimerFires; Settles 1 btc_null; TimerFires; Unmount;
                       Settles 0 eth_down] = Some r /\
  length (started r) =
    S (length (List.filter is_TimerFires
                 [TimerFires; Settles 1 btc_null; TimerFires; Unmount;
                  Settles 0 eth_down])) /\
  NoDup (settled_ids [TimerFires; Settles 1 btc_null; TimerFires; Unmount;
                      Settles 0 eth_down]) /\
  (forall i, i ∈ settled_ids [TimerFires; Settles 1 btc_null; TimerFires; Unmount;
                              Settles 0 eth_down] ->
             (i < length (started r))%nat) /\
  NoDup (pending r) /\
  (forall i, i ∈ pending r <->
             (i < length (started r))%nat /\
             i ∉ settled_ids [TimerFires; Settles 1 btc_null; TimerFires; Unmount;
                              Settles 0 eth_down]).
Proof.
  eexists. split; [reflexivity|].
  apply (X11_invocations_accounted_for
           [TimerFires; Settles 1 btc_null; TimerFires; Unmount; Settles 0 eth_down]).
  reflexivity.
Defined.

Lemma run_mounted (es : list event) :
  forall r r',
    mounted r = true ->
    forallb (fun e => negb (is_Unmount e)) es = true ->
    run r es = Some r' ->
    app r' = cycles (app r) (settled_cycles es).
Proof.
  induction es as [|e es IH]; intros r r' Hm Hes Hrun; cbn in Hrun, Hes.
  - by injection Hrun as <-.
  - apply andb_prop in Hes as [He Hes].
    destruct (step r e) as [r1|] eqn:Hstep; [|discriminate].
    unfold settled_cycles. rewrite omap_cons_eq. fold (settled_cycles es).
    destruct e as [|id c|]; cbn in Hstep; [| |discriminate].
    + destruct (interval r); [|discriminate]. injection Hstep as <-.
      apply IH in Hrun; [|exact Hm|exact Hes]. exact Hrun.
    + destruct (bool_decide _); [|discriminate]. injection Hstep as <-.
      apply IH in Hrun; [|exact Hm|exact Hes].
      rewrite Hrun. cbn. unfold settle. by rewrite Hm.
Qed.

(** X12. While the component is mounted, the state depends on the
    answers only through the order in which the invocations settle, not
    the order in which they were started: the state is the one reached by
    the settled cycles in settle order, so the latest samples are those of
    the successful cycle that settled last, even if it was started
    first. *)
Theorem X12_results_apply_in_settle_order (es : list event) (r : Runtime)
    (Hmounted : forallb (fun e => negb (is_Unmount e)) es = true)
    (Hrun : run mount es = Some r) :
  app r = cycles initial (settled_cycles es) /\
  ethData (app r) = latest ethRes (settled_cycles es) /\
  btcData (app r) = latest btcRes (settled_cycles es).
Proof.
  pose proof (run_mounted es mount r eq_refl Hmounted Hrun) as H.
  change (app mount) with initial in H. rewrite H.
  split; [done|]. apply samples_along_run.
Qed.

Lemma X12_results_apply_in_settle_order_witness :
  let started_first := ok_cycle "12:00:05" (sample 10 1) (sample 1 1) in
  let started_second := ok_cycle "12:00:04" (sample 20 2) (sample 2 2) in
  let es := [TimerFires; Settles 1 started_second; Settles 0 started_first] in
  forallb (fun e => negb (is_Unmount e)) es = true /\
  exists r, run mount es = Some r /\
    ethData (app r) = sample 10 1 /\
    app r = cycles initial (settled_cycles es) /\
    ethData (app r) = latest ethRes (settled_cycles es) /\
    btcData (app r) = latest btcRes (settled_cycles es).
Proof.
  cbn zeta. split; [reflexivity|]. eexists. split; [reflexivity|].
  split; [reflexivity|].
  apply (X12_results_apply_in_settle_order
           [TimerFires;
            Settles 1 (ok_cycle "12:00:04" (sample 20 2) (sample 2 2));
            Settles 0 (ok_cycle "12:00:05" (sample 10 1) (sample 1 1))]);
    reflexivity.
Defined.
